(** * Workflow execution engine: a shallow embedding and its properties

    The development follows the Python sources of the backend:
    - [app/models/workflow.py]              (modules [WorkflowModel], [WorkflowState])
    - [app/models/execution.py] and
      [app/models/workflow_execution.py]    (modules [PyObject], [ExecutionModel])
    - [app/services/action_executor_service.py]      (modules [Resolver], [Engine])
    - [app/services/security/signing_service.py]     (module [Signing])
    - [app/services/blockchain/manager.py]           (module [Manager])
    - [app/services/trigger_checker_service.py] and the checkers of
      [app/services/event_checkers/]        (modules [Trigger], [EvmChecker],
                                             [TwitterChecker], [TriggerDispatch])

    JSON columns are modelled by the inductive type [json]; Python
    dictionaries keep insertion order, so they are association lists.
    Strings are ASCII strings; integers are [Z]. *)

From Stdlib Require Import String Ascii List ZArith Bool Arith Lia DecimalString.
Import ListNotations.

Set Implicit Arguments.
Set Warnings "-register-all".

Open Scope string_scope.
Open Scope list_scope.

(* ================================================================== *)
(** ** JSON values and Python dictionaries *)

Module Json.

Inductive json : Type :=
| JNull : json
| JBool : bool -> json
| JInt : Z -> json
| JStr : string -> json
| JList : list json -> json
| JDict : list (string * json) -> json.

Definition dict := list (string * json).

(** [d.get(k)] of a Python dictionary, as an option. *)
Fixpoint lookup (k : string) (d : dict) : option json :=
  match d with
  | [] => None
  | (k', v) :: rest => if String.eqb k k' then Some v else lookup k rest
  end.

(** [d[k] = v]: an existing key keeps its position, a new key goes last. *)
Fixpoint assign (k : string) (v : json) (d : dict) : dict :=
  match d with
  | [] => [(k, v)]
  | (k', v') :: rest =>
      if String.eqb k k' then (k, v) :: rest else (k', v') :: assign k v rest
  end.

(** [k in d]. *)
Definition mem (k : string) (d : dict) : bool :=
  match lookup k d with Some _ => true | None => false end.

Lemma lookup_assign_same k v d : lookup k (assign k v d) = Some v.
Proof.
  induction d as [|[k' v'] rest IH]; simpl.
  - now rewrite String.eqb_refl.
  - destruct (String.eqb k k') eqn:E; simpl.
    + now rewrite String.eqb_refl.
    + now rewrite E.
Qed.

Lemma lookup_assign_other k k' v d :
  k <> k' -> lookup k' (assign k v d) = lookup k' d.
Proof.
  intros Hne. induction d as [|[k0 v0] rest IH]; simpl.
  - destruct (String.eqb k' k) eqn:E; [apply String.eqb_eq in E; congruence | reflexivity].
  - destruct (String.eqb k k0) eqn:E; simpl.
    + apply String.eqb_eq in E. subst k0.
      destruct (String.eqb k' k) eqn:E'; [apply String.eqb_eq in E'; congruence | reflexivity].
    + destruct (String.eqb k' k0); [reflexivity | exact IH].
Qed.

End Json.
Import Json.

(* ================================================================== *)
(** ** Python exceptions and fallible computations *)

Module Py.

(** The classes of exceptions the modelled code raises or catches. *)
Inductive exn_class : Type :=
| ValueError
| AttributeError
| TypeError
| KeyError
| IndexError
| NameError
| NotImplementedError
| SigningException
| CircuitBreakerError
| BlockchainServiceException
| OtherException.

Definition exn_class_eqb (a b : exn_class) : bool :=
  match a, b with
  | ValueError, ValueError | AttributeError, AttributeError
  | TypeError, TypeError | KeyError, KeyError | IndexError, IndexError
  | NameError, NameError
  | NotImplementedError, NotImplementedError
  | SigningException, SigningException
  | CircuitBreakerError, CircuitBreakerError
  | BlockchainServiceException, BlockchainServiceException
  | OtherException, OtherException => true
  | _, _ => false
  end.

(** An exception message is an f-string: literal text and interpolated
    values.  Interpolated strings are [Text]; interpolated objects, whose
    rendering is Python's [repr], are [Repr]. *)
Inductive fragment : Type :=
| Text : string -> fragment
| Repr : json -> fragment.

Definition message := list fragment.

Record exn : Type := mkExn { exn_cls : exn_class; exn_msg : message }.

Inductive result (A : Type) : Type :=
| Ok : A -> result A
| Raise : exn -> result A.
Arguments Ok {A} _.
Arguments Raise {A} _.

Definition bind {A B : Type} (r : result A) (k : A -> result B) : result B :=
  match r with
  | Ok a => k a
  | Raise e => Raise e
  end.

(** [needle in hay] for strings. *)
Fixpoint is_prefix (p s : string) : bool :=
  match p, s with
  | EmptyString, _ => true
  | String a p', String b s' => Ascii.eqb a b && is_prefix p' s'
  | String _ _, EmptyString => false
  end.

Fixpoint contains (hay needle : string) : bool :=
  is_prefix needle hay ||
  match hay with
  | EmptyString => false
  | String _ hay' => contains hay' needle
  end.

(** The message displays the text [t] inside one of its string fragments. *)
Definition mentions (m : message) (t : string) : bool :=
  existsb (fun f => match f with Text s => contains s t | Repr _ => false end) m.

(** [type(v).__name__] *)
Definition type_name (v : json) : string :=
  match v with
  | JNull => "NoneType"
  | JBool _ => "bool"
  | JInt _ => "int"
  | JStr _ => "str"
  | JList _ => "list"
  | JDict _ => "dict"
  end.

(** Python truthiness of a JSON value. *)
Definition json_truthy (v : json) : bool :=
  match v with
  | JNull => false
  | JBool b => b
  | JInt z => negb (z =? 0)%Z
  | JStr s => match s with EmptyString => false | String _ _ => true end
  | JList l => match l with [] => false | _ => true end
  | JDict d => match d with [] => false | _ => true end
  end.

(** Truthiness of a string or optional string ([if not s]). *)
Definition truthy (s : option string) : bool :=
  match s with
  | Some (String _ _) => true
  | _ => false
  end.

End Py.
Import Py.

(* ================================================================== *)
(** ** The workflow graph ([app/models/workflow.py]) *)

Module WorkflowModel.

(** A node is [{'id': str, 'type': str, 'config': dict}]. *)
Record node : Type := mkNode {
  node_id : string;
  node_type : string;
  node_config : dict
}.

(** An edge is [{'source': str, 'target': str, 'label': str}].  The key
    [label] may be missing ([None] here) or hold any JSON value, also
    [null]: [edge.get('label')] does not tell the two apart, the call
    [edge.get('label', 'default')] does. *)
Record edge : Type := mkEdge {
  edge_source : string;
  edge_target : string;
  edge_label : option json
}.

(** The columns of a workflow that the engine and the trigger checker use;
    [wf_sca_address] is [workflow.user.sca_address].  The class has no
    column or property named [state]: [attributes] holds what was assigned
    to the instance under a name the class does not define, which is empty
    for a workflow as a query loads it. *)
Record workflow : Type := mkWorkflow {
  wf_id : Z;
  wf_user_id : Z;
  wf_sca_address : string;
  trigger_config : dict;
  attributes : dict;
  nodes : list node;
  edges : list edge
}.

(** [target_ids = {edge.get('target') for edge in self.edges}] *)
Definition target_ids (w : workflow) : list string :=
  map edge_target (edges w).

(** [node.get('id') not in target_ids] *)
Definition not_a_target (w : workflow) (n : node) : bool :=
  negb (existsb (String.eqb (node_id n)) (target_ids w)).

(** The property [Workflow.start_node_id]. *)
Definition start_node_id (w : workflow) : option string :=
  match nodes w with
  | [] => None
  | first :: _ =>
      match find (not_a_target w) (nodes w) with
      | Some n => Some (node_id n)
      | None => Some (node_id first)
      end
  end.

(** The entry rule in the specification's words: the node that is never a
    target when exactly one qualifies, the first node of the list when none
    or several qualify. *)
Definition entry_node_per_spec (w : workflow) : option string :=
  match nodes w with
  | [] => None
  | first :: _ =>
      match filter (not_a_target w) (nodes w) with
      | [n] => Some (node_id n)
      | _ => Some (node_id first)
      end
  end.

(** Every edge joins two existing nodes. *)
Definition well_formed (w : workflow) : Prop :=
  forall e, In e (edges w) ->
    In (edge_source e) (map node_id (nodes w)) /\
    In (edge_target e) (map node_id (nodes w)).

End WorkflowModel.
Import WorkflowModel.

(* ================================================================== *)
(** ** Properties of the entry node *)

Section EntryNode.

Lemma find_first_split (A : Type) (p : A -> bool) (l : list A) (x : A) :
  find p l = Some x ->
  exists pre post, l = pre ++ x :: post /\ p x = true /\
                   forallb (fun y => negb (p y)) pre = true.
Proof.
  induction l as [|a l IH]; simpl; [discriminate|].
  destruct (p a) eqn:Ha.
  - intros [= ->]. exists [], l. auto.
  - intros H. destruct (IH H) as (pre & post & -> & Hx & Hpre).
    exists (a :: pre), post. simpl. rewrite Ha. auto.
Qed.

Lemma find_none_forallb (A : Type) (p : A -> bool) (l : list A) :
  find p l = None -> forallb (fun y => negb (p y)) l = true.
Proof.
  induction l as [|a l IH]; simpl; [reflexivity|].
  destruct (p a); [discriminate|]. exact IH.
Qed.

Definition graph_abc : workflow :=
  mkWorkflow 1 1 "0xsca" [] []
    [mkNode "a" "condition" []; mkNode "b" "swap" []; mkNode "c" "swap" []]
    [mkEdge "b" "a" (Some (JStr "default"))].

(** C10, as stated, fails: in the graph with nodes a, b, c and the single
    edge b -> a, two nodes (b and c) are never a target, so the stated rule
    falls back to the first node a, whereas [start_node_id] answers b. *)
Lemma start_node_id_differs_from_stated_rule :
  filter (not_a_target graph_abc) (nodes graph_abc)
    = [mkNode "b" "swap" []; mkNode "c" "swap" []] /\
  entry_node_per_spec graph_abc = Some "a" /\
  start_node_id graph_abc = Some "b" /\
  start_node_id graph_abc <> entry_node_per_spec graph_abc.
Proof.
  repeat split; try reflexivity. vm_compute. discriminate.
Qed.

(** C10, amended: the entry node is the first node, in list order, that is
    not the target of any edge; when no node qualifies it is the first node
    of the list; an empty node list has no entry node. *)
Theorem start_node_id_first_untargeted (w : workflow) :
  (nodes w = [] -> start_node_id w = None) /\
  (forall n, find (not_a_target w) (nodes w) = Some n ->
     start_node_id w = Some (node_id n) /\
     exists pre post,
       nodes w = pre ++ n :: post /\
       ~ In (node_id n) (target_ids w) /\
       (forall m, In m pre -> In (node_id m) (target_ids w))) /\
  (forall first rest, nodes w = first :: rest ->
     (forall m, In m (nodes w) -> In (node_id m) (target_ids w)) ->
     start_node_id w = Some (node_id first)).
Proof.
  unfold start_node_id. split; [|split].
  - intros ->. reflexivity.
  - intros n Hf. rewrite Hf.
    destruct (nodes w) as [|first rest] eqn:Hn; [discriminate|].
    split; [reflexivity|].
    destruct (find_first_split _ _ Hf) as (pre & post & Hsplit & Hq & Hpre).
    exists pre, post. split; [exact Hsplit|]. split.
    + unfold not_a_target in Hq. apply negb_true_iff in Hq.
      intros Hin. assert (existsb (String.eqb (node_id n)) (target_ids w) = true) as Hc.
      { apply existsb_exists. exists (node_id n). split; [exact Hin | apply String.eqb_refl]. }
      congruence.
    + intros m Hm. rewrite forallb_forall in Hpre. specialize (Hpre m Hm).
      unfold not_a_target in Hpre. rewrite negb_involutive in Hpre.
      apply existsb_exists in Hpre. destruct Hpre as (t & Ht & Heq).
      apply String.eqb_eq in Heq. now subst t.
  - intros first rest Hn Hall. rewrite Hn.
    destruct (find (not_a_target w) (first :: rest)) as [n|] eqn:Hf; [|reflexivity].
    exfalso. apply find_some in Hf. destruct Hf as [Hin Hq].
    rewrite <- Hn in Hin. specialize (Hall n Hin).
    unfold not_a_target in Hq. apply negb_true_iff in Hq.
    assert (existsb (String.eqb (node_id n)) (target_ids w) = true) as Hc.
    { apply existsb_exists. exists (node_id n). split; [exact Hall | apply String.eqb_refl]. }
    congruence.
Qed.

Lemma start_node_id_first_untargeted_witness :
  start_node_id graph_abc = Some "b" /\
  exists pre post,
    nodes graph_abc = pre ++ mkNode "b" "swap" [] :: post /\
    ~ In "b" (target_ids graph_abc) /\
    (forall m, In m pre -> In (node_id m) (target_ids graph_abc)).
Proof.
  destruct (start_node_id_first_untargeted graph_abc) as (_ & H & _).
  exact (H (mkNode "b" "swap" []) eq_refl).
Defined.

End EntryNode.

(* ================================================================== *)
(** ** The expression resolver ([ActionExecutorService._resolve_inputs]) *)

Module Resolver.

Definition code (c : ascii) : nat := nat_of_ascii c.

(** [\w] on ASCII text: letters, digits and the underscore. *)
Definition is_word_char (c : ascii) : bool :=
  ((48 <=? code c)%nat && (code c <=? 57)%nat) ||
  ((65 <=? code c)%nat && (code c <=? 90)%nat) ||
  ((97 <=? code c)%nat && (code c <=? 122)%nat) ||
  (code c =? 95)%nat.

Definition quote_char : ascii := ascii_of_nat 34.

(** The character class of [placeholder_pattern]: word characters, the dot,
    both square brackets, both kinds of quote and the space. *)
Definition is_path_char (c : ascii) : bool :=
  is_word_char c ||
  Ascii.eqb c "."%char || Ascii.eqb c "["%char || Ascii.eqb c "]"%char ||
  Ascii.eqb c "'"%char || Ascii.eqb c quote_char || Ascii.eqb c " "%char.

(** Longest prefix of characters satisfying [p], and what follows it. *)
Fixpoint span (p : ascii -> bool) (s : string) : string * string :=
  match s with
  | EmptyString => (EmptyString, EmptyString)
  | String c s' =>
      if p c then let (run, rest) := span p s' in (String c run, rest)
      else (EmptyString, s)
  end.

(** [placeholder_pattern.match(value)], returning [group(1)].  [re.match]
    anchors the pattern at the start of [value] only.  The class does not
    contain the closing brace, so the greedy run is the longest one. *)
Definition placeholder_match (value : string) : option string :=
  match value with
  | String c1 (String c2 s) =>
      if Ascii.eqb c1 "{"%char && Ascii.eqb c2 "{"%char then
        match span is_path_char s with
        | (String b body, String d1 (String d2 _)) =>
            if Ascii.eqb d1 "}"%char && Ascii.eqb d2 "}"%char
            then Some (String b body) else None
        | _ => None
        end
      else None
  | _ => None
  end.

(** The string is exactly one placeholder token, nothing before or after. *)
Definition entirely_placeholder (value : string) : Prop :=
  exists body, placeholder_match value = Some body /\
               value = ("{{" ++ body ++ "}}")%string.

Fixpoint lstrip (s : string) : string :=
  match s with
  | String c s' => if Ascii.eqb c " "%char then lstrip s' else s
  | EmptyString => EmptyString
  end.

Fixpoint rstrip (s : string) : string :=
  match s with
  | EmptyString => EmptyString
  | String c s' =>
      match rstrip s' with
      | EmptyString => if Ascii.eqb c " "%char then EmptyString else String c EmptyString
      | r => String c r
      end
  end.

(** [str.strip()]; the only blank a matched group can hold is the space. *)
Definition strip (s : string) : string := rstrip (lstrip s).

(** [s.replace(c, "")] for a one-character [c]. *)
Fixpoint remove_char (c : ascii) (s : string) : string :=
  match s with
  | EmptyString => EmptyString
  | String a s' => if Ascii.eqb a c then remove_char c s' else String a (remove_char c s')
  end.

(** [s.split(sep)] for a one-character separator. *)
Fixpoint split (sep : ascii) (s : string) : list string :=
  match s with
  | EmptyString => [EmptyString]
  | String c s' =>
      if Ascii.eqb c sep then EmptyString :: split sep s'
      else match split sep s' with
           | h :: t => String c h :: t
           | [] => [String c EmptyString]
           end
  end.

Definition nonempty (s : string) : bool :=
  match s with EmptyString => false | String _ _ => true end.

(** The key parts visited by the two nested [for] loops, in order. *)
Definition key_parts (path : string) : list string :=
  let cleaned := remove_char "]"%char (remove_char quote_char (remove_char "'"%char path)) in
  flat_map (fun part => filter nonempty (split "."%char part)) (split "["%char cleaned).

(** [resolved_value = resolved_value.get(key_part)]: only a dictionary has a
    [get] method; on anything else Python raises [AttributeError]. *)
Definition get_step (v : json) (key_part : string) : result json :=
  match v with
  | JDict d => Ok (match lookup key_part d with Some x => x | None => JNull end)
  | other =>
      Raise (mkExn AttributeError
        [Text "'"; Text (type_name other); Text "' object has no attribute 'get'"])
  end.

Fixpoint walk (keys : list string) (v : json) : result json :=
  match keys with
  | [] => Ok v
  | k :: ks => bind (get_step v k) (walk ks)
  end.

Definition unresolved (value path : string) (execution_data : dict) : exn :=
  mkExn ValueError
    [Text "Could not resolve placeholder '"; Text value; Text "'. Path '"; Text path;
     Text "' not found in execution data: "; Repr (JDict execution_data)].

(** The [except (KeyError, IndexError, TypeError)] clause around the walk. *)
Definition wrap_errors (value : string) (r : result json) : result json :=
  match r with
  | Raise e =>
      match exn_cls e with
      | KeyError | IndexError | TypeError =>
          Raise (mkExn ValueError
                   ([Text "Error resolving placeholder '"; Text value; Text "': "] ++ exn_msg e))
      | _ => Raise e
      end
  | Ok v => Ok v
  end.

(** The body of the loop for one [(key, value)] item. *)
Definition resolve_value (value : json) (execution_data : dict) : result json :=
  match value with
  | JStr s =>
      match placeholder_match s with
      | Some group1 =>
          let path := strip group1 in
          wrap_errors s
            (bind (walk (key_parts path) (JDict execution_data)) (fun resolved_value =>
               match resolved_value with
               | JNull => Raise (unresolved s path execution_data)
               | _ => Ok resolved_value
               end))
      | None => Ok value
      end
  | _ => Ok value
  end.

Fixpoint resolve_items (items : dict) (execution_data : dict) (resolved_config : dict)
  : result dict :=
  match items with
  | [] => Ok resolved_config
  | (key, value) :: rest =>
      bind (resolve_value value execution_data) (fun v =>
        resolve_items rest execution_data (assign key v resolved_config))
  end.

Definition _resolve_inputs (config execution_data : dict) : result dict :=
  resolve_items config execution_data [].

End Resolver.
Import Resolver.

Example match_whole : placeholder_match "{{nodes['n0'].output.x}}" = Some "nodes['n0'].output.x".
Proof. reflexivity. Qed.
Example match_prefix : placeholder_match "{{a.b}} and more" = Some "a.b".
Proof. reflexivity. Qed.
Example match_inner : placeholder_match "x {{a.b}}" = None.
Proof. reflexivity. Qed.
Example parts_ex : key_parts "nodes['n0'].output.x" = ["nodes"; "n0"; "output"; "x"].
Proof. reflexivity. Qed.

(* ================================================================== *)
(** ** Properties of the expression resolver *)

Section ResolverFacts.

Variable execution_data : dict.

Lemma resolve_value_non_string (v : json) :
  (forall s, v <> JStr s) -> resolve_value v execution_data = Ok v.
Proof.
  intros H. destruct v; try reflexivity. now destruct (H s).
Qed.

Lemma resolve_value_no_match (s : string) :
  placeholder_match s = None -> resolve_value (JStr s) execution_data = Ok (JStr s).
Proof.
  intros H. unfold resolve_value. now rewrite H.
Qed.

Lemma is_prefix_refl (s : string) : is_prefix s s = true.
Proof.
  induction s as [|c s IH]; simpl; [reflexivity|].
  now rewrite Ascii.eqb_refl, IH.
Qed.

Lemma contains_refl (s : string) : contains s s = true.
Proof.
  destruct s; simpl; [reflexivity|].
  now rewrite Ascii.eqb_refl, is_prefix_refl.
Qed.

Lemma mentions_fragment (m : message) (t : string) :
  In (Text t) m -> mentions m t = true.
Proof.
  intros H. unfold mentions. apply existsb_exists.
  exists (Text t). split; [exact H | apply contains_refl].
Qed.

(** When the walk ends on [None], the error is the [ValueError] that shows
    both the raw placeholder and the path. *)
Lemma resolve_value_unresolved (s group1 : string) :
  placeholder_match s = Some group1 ->
  walk (key_parts (strip group1)) (JDict execution_data) = Ok JNull ->
  resolve_value (JStr s) execution_data = Raise (unresolved s (strip group1) execution_data) /\
  mentions (exn_msg (unresolved s (strip group1) execution_data)) s = true /\
  mentions (exn_msg (unresolved s (strip group1) execution_data)) (strip group1) = true.
Proof.
  intros Hm Hw. unfold resolve_value. rewrite Hm, Hw.
  split; [reflexivity|].
  split; apply mentions_fragment; unfold unresolved; cbn [exn_msg In]; auto.
Qed.

(** A placeholder whose walk reaches a value is replaced by that value. *)
Lemma resolve_value_found (s group1 : string) (v : json) :
  placeholder_match s = Some group1 ->
  walk (key_parts (strip group1)) (JDict execution_data) = Ok v ->
  v <> JNull ->
  resolve_value (JStr s) execution_data = Ok v.
Proof.
  intros Hm Hw Hv. unfold resolve_value. rewrite Hm, Hw.
  destruct v; [congruence | reflexivity ..].
Qed.

End ResolverFacts.

(** C5 fails on the code: [re.match] anchors the pattern at the start of the
    string only, so a string that begins with a placeholder and continues
    with other text is not passed through unchanged; the whole entry is
    replaced by the looked-up value and the trailing text is lost. *)
Theorem resolve_inputs_prefix_placeholder_replaced :
  ~ entirely_placeholder "{{a.b}} and more" /\
  _resolve_inputs [("amount", JStr "{{a.b}} and more")] [("a", JDict [("b", JInt 5)])]
    = Ok [("amount", JInt 5)].
Proof.
  split; [|reflexivity].
  intros (body & Hm & Hv). vm_compute in Hm.
  injection Hm as <-. discriminate Hv.
Qed.

(** C6 fails on the code: with empty execution data the first [get] of the
    path of the placeholder for nonexistent_node.output.value returns [None],
    the second [get] is then called on [None] and raises [AttributeError],
    which the [except] clause does not catch; its message shows neither the
    path nor the placeholder. *)
Theorem resolve_inputs_missing_node_attribute_error :
  exists e,
    _resolve_inputs [("amount", JStr "{{nonexistent_node.output.value}}")] [] = Raise e /\
    exn_cls e = AttributeError /\
    exn_msg e = [Text "'"; Text "NoneType"; Text "' object has no attribute 'get'"] /\
    mentions (exn_msg e) "nonexistent_node.output.value" = false /\
    mentions (exn_msg e) "{{nonexistent_node.output.value}}" = false.
Proof.
  eexists. repeat split; reflexivity.
Qed.

(** The sibling case the code handles: a path of one segment that is absent. *)
Example resolve_inputs_single_segment_missing :
  _resolve_inputs [("amount", JStr "{{missing}}")] []
    = Raise (unresolved "{{missing}}" "missing" []).
Proof. reflexivity. Qed.

(* ================================================================== *)
(** ** The grant resolver ([app/services/security/signing_service.py]) *)

Module Signing.

(** A row of [session_key_grants].  Times are seconds on the clock that
    [datetime.utcnow()] reads. *)
Record SessionKeyGrant : Type := mkGrant {
  grant_id : Z;
  user_id : Z;
  public_address : string;
  permissions : dict;
  expires_at : Z
}.

Definition dquote : string := String (ascii_of_nat 34) EmptyString.

Definition decimal (z : Z) : string := NilZero.string_of_int (Z.to_int z).

(** A JSON string between its double quotes, as PostgreSQL prints it: the
    double quote and the backslash are escaped, and so are the control
    characters. *)
Definition hex_digit (n : nat) : ascii :=
  ascii_of_nat (if (n <? 10)%nat then 48 + n else 87 + n).

Definition escaped_char (c : ascii) : string :=
  let n := nat_of_ascii c in
  if (n =? 34)%nat then String "\" dquote
  else if (n =? 92)%nat then "\\"
  else if (n =? 8)%nat then "\b"
  else if (n =? 12)%nat then "\f"
  else if (n =? 10)%nat then "\n"
  else if (n =? 13)%nat then "\r"
  else if (n =? 9)%nat then "\t"
  else if (n <? 32)%nat
       then "\u00" ++ String (hex_digit (n / 16)) (String (hex_digit (n mod 16)) "")
  else String c "".

Fixpoint escaped (s : string) : string :=
  match s with
  | EmptyString => ""
  | String c rest => escaped_char c ++ escaped rest
  end%string.

Definition quoted (s : string) : string := (dquote ++ escaped s ++ dquote)%string.

(** JSONB keeps one value per key, the last one given, and orders the keys
    of an object by length and then bytewise. *)
Definition key_leb (a b : string) : bool :=
  (String.length a <? String.length b)%nat ||
  ((String.length a =? String.length b)%nat && String.leb a b).

Fixpoint place (kv : string * string) (sorted : list (string * string))
  : list (string * string) :=
  match sorted with
  | [] => [kv]
  | kv' :: rest =>
      if String.eqb (fst kv) (fst kv') then kv :: rest
      else if key_leb (fst kv) (fst kv') then kv :: kv' :: rest
      else kv' :: place kv rest
  end.

Definition jsonb_members (printed : list (string * string)) : list (string * string) :=
  fold_left (fun sorted kv => place kv sorted) printed [].

Fixpoint joined (l : list string) : string :=
  match l with
  | [] => ""
  | [x] => x
  | x :: rest => x ++ ", " ++ joined rest
  end%string.

(** The text PostgreSQL gives for a JSONB value: elements separated by a
    comma and a space, a colon and a space after a key. *)
Fixpoint jsonb_text (v : json) : string :=
  match v with
  | JNull => "null"
  | JBool true => "true"
  | JBool false => "false"
  | JInt z => decimal z
  | JStr s => quoted s
  | JList items => "[" ++ joined (map jsonb_text items) ++ "]"
  | JDict members =>
      "{" ++
      joined (map (fun kv => quoted (fst kv) ++ ": " ++ snd kv)
                  (jsonb_members
                     ((fix printed (l : list (string * json)) : list (string * string) :=
                         match l with
                         | [] => []
                         | (k, x) :: rest => (k, jsonb_text x) :: printed rest
                         end) members)))
      ++ "}"
  end%string.

(** [SessionKeyGrant.permissions['allowed_targets'].astext]: the operator
    [->>]; a missing key or a JSON null is the SQL NULL, a JSON string is
    its content, anything else its JSONB text. *)
Definition allowed_targets_astext (p : dict) : option string :=
  match lookup "allowed_targets" p with
  | None | Some JNull => None
  | Some (JStr s) => Some s
  | Some v => Some (jsonb_text v)
  end.

(** [text LIKE pattern] of PostgreSQL: the percent sign stands for any run
    of characters, the underscore for any one character, and the backslash,
    the default escape character, makes the character after it stand for
    itself.  A pattern that ends in a lone backslash is refused by the
    database; the patterns built below always end in a percent sign. *)
Fixpoint like (pattern : string) {struct pattern} : string -> bool :=
  match pattern with
  | EmptyString => fun text => match text with EmptyString => true | _ => false end
  | String c pattern' =>
      if Ascii.eqb c "%"%char then
        fix any (text : string) : bool :=
          like pattern' text ||
          match text with
          | EmptyString => false
          | String _ text' => any text'
          end
      else if Ascii.eqb c "_"%char then
        fun text =>
          match text with
          | EmptyString => false
          | String _ text' => like pattern' text'
          end
      else if Ascii.eqb c (ascii_of_nat 92) then
        match pattern' with
        | EmptyString => fun _ => false
        | String d pattern'' =>
            fun text =>
              match text with
              | EmptyString => false
              | String x text' => Ascii.eqb x d && like pattern'' text'
              end
        end
      else
        fun text =>
          match text with
          | EmptyString => false
          | String x text' => Ascii.eqb x c && like pattern' text'
          end
  end.

(** [column.contains(target_contract)] on a text column: SQLAlchemy renders
    [column LIKE '%' || target || '%'] and does not escape the target, so a
    percent sign, an underscore or a backslash inside it keeps its meaning
    in the pattern.  A NULL column never satisfies the test. *)
Definition astext_contains (p : dict) (target_contract : string) : bool :=
  match allowed_targets_astext p with
  | Some text => like ("%" ++ target_contract ++ "%")%string text
  | None => false
  end.

(** The [where] clause of the query. *)
Definition candidate (now uid : Z) (target_contract : string) (g : SessionKeyGrant) : bool :=
  (user_id g =? uid)%Z && (now <? expires_at g)%Z &&
  astext_contains (permissions g) target_contract.

(** [value > max_per_tx]: integers compare (a JSON boolean is the integer 0
    or 1 in Python), any other type raises [TypeError]. *)
Definition exceeds (value : Z) (max_per_tx : json) : result bool :=
  match max_per_tx with
  | JInt m => Ok (m <? value)%Z
  | JBool b => Ok ((if b then 1 else 0) <? value)%Z
  | other =>
      Raise (mkExn TypeError
        [Text "'>' not supported between instances of 'int' and '";
         Text (type_name other); Text "'"])
  end.

(** The body of the [try] block of [_check_spend_limits]. *)
Definition spend_limits_body (g : SessionKeyGrant) (value : Z) : result bool :=
  if negb (mem "spend_limits" (permissions g)) then Ok true
  else
    match lookup "spend_limits" (permissions g) with
    | Some (JDict spend_limits) =>
        match lookup "max_spend_per_tx" spend_limits with
        | None | Some JNull => Ok true
        | Some max_per_tx =>
            bind (exceeds value max_per_tx) (fun too_much =>
              if too_much then Ok false else Ok true)
        end
    | Some other =>
        Raise (mkExn AttributeError
          [Text "'"; Text (type_name other); Text "' object has no attribute 'get'"])
    | None => Raise (mkExn KeyError [Text "'spend_limits'"])
    end.

(** [_check_spend_limits]: [KeyError], [TypeError] and [ValueError] deny;
    any other exception leaves the function. *)
Definition _check_spend_limits (g : SessionKeyGrant) (value : Z) : result bool :=
  match spend_limits_body g value with
  | Raise e =>
      match exn_cls e with
      | KeyError | TypeError | ValueError => Ok false
      | _ => Raise e
      end
  | Ok b => Ok b
  end.

(** The [for] loop over the rows of the query. *)
Fixpoint first_within_limits (rows : list SessionKeyGrant) (value : Z)
  : result (option SessionKeyGrant) :=
  match rows with
  | [] => Ok None
  | g :: rest =>
      bind (_check_spend_limits g value) (fun ok =>
        if ok then Ok (Some g) else first_within_limits rest value)
  end.

(** [find_valid_grant_for_action]; [db] is the table, [now] the clock. *)
Definition find_valid_grant_for_action
  (db : list SessionKeyGrant) (now : Z) (uid : Z)
  (target_contract : string) (value : Z) : result (option SessionKeyGrant) :=
  first_within_limits (filter (candidate now uid target_contract) db) value.

(** The grant lists [target] as one of its allowed targets. *)
Definition declares_target (g : SessionKeyGrant) (target : string) : Prop :=
  exists items, lookup "allowed_targets" (permissions g) = Some (JList items) /\
                In (JStr target) items.

(** The per-transaction ceiling the grant declares, if any. *)
Definition per_tx_ceiling (g : SessionKeyGrant) : option json :=
  match lookup "spend_limits" (permissions g) with
  | Some (JDict spend_limits) =>
      match lookup "max_spend_per_tx" spend_limits with
      | Some JNull => None
      | other => other
      end
  | _ => None
  end.

End Signing.
Import Signing.

(* ================================================================== *)
(** ** Properties of the grant resolver *)

Section GrantFacts.

Variables (db : list SessionKeyGrant) (now uid : Z) (target : string) (value : Z).

Lemma first_within_limits_some rows g :
  first_within_limits rows value = Ok (Some g) ->
  In g rows /\ _check_spend_limits g value = Ok true.
Proof.
  induction rows as [|h rest IH]; simpl; [discriminate|].
  destruct (_check_spend_limits h value) as [[|]|e] eqn:Hc; simpl.
  - intros [= <-]. auto.
  - intros H. destruct (IH H). auto.
  - discriminate.
Qed.

Lemma first_within_limits_none rows :
  first_within_limits rows value = Ok None ->
  forall g, In g rows -> _check_spend_limits g value = Ok false.
Proof.
  induction rows as [|h rest IH]; simpl; [tauto|].
  destruct (_check_spend_limits h value) as [[|]|e] eqn:Hc; simpl; try discriminate.
  intros H g [<-|Hin]; auto.
Qed.

(** What the code guarantees of a returned grant: it belongs to the user, is
    unexpired, the text of its allowed targets matches the pattern that
    [LIKE] is given, the target between two percent signs, and its
    spend-limit check passes. *)
Lemma find_valid_grant_sound g :
  find_valid_grant_for_action db now uid target value = Ok (Some g) ->
  In g db /\ user_id g = uid /\ (now < expires_at g)%Z /\
  astext_contains (permissions g) target = true /\
  _check_spend_limits g value = Ok true.
Proof.
  unfold find_valid_grant_for_action. intros H.
  apply first_within_limits_some in H. destruct H as [Hin Hc].
  apply filter_In in Hin. destruct Hin as [Hin Hcand].
  unfold candidate in Hcand.
  apply andb_true_iff in Hcand. destruct Hcand as [Hcand Ht].
  apply andb_true_iff in Hcand. destruct Hcand as [Hu He].
  apply Z.eqb_eq in Hu. apply Z.ltb_lt in He. auto.
Qed.

(** [None] is returned only when every candidate fails the spend check. *)
Lemma find_valid_grant_none g :
  find_valid_grant_for_action db now uid target value = Ok None ->
  In g db -> candidate now uid target g = true ->
  _check_spend_limits g value = Ok false.
Proof.
  unfold find_valid_grant_for_action. intros H Hin Hc.
  eapply first_within_limits_none; [exact H|].
  apply filter_In. auto.
Qed.

(** The spend-limit check on a grant whose ceiling, when declared, is an
    integer: it passes exactly when no ceiling is declared or the value does
    not exceed it. *)
Lemma check_spend_limits_integer_ceiling g :
  (lookup "spend_limits" (permissions g) = None \/
   exists sl, lookup "spend_limits" (permissions g) = Some (JDict sl)) ->
  (per_tx_ceiling g = None \/ exists m, per_tx_ceiling g = Some (JInt m)) ->
  _check_spend_limits g value =
    Ok (match per_tx_ceiling g with
        | Some (JInt m) => (value <=? m)%Z
        | _ => true
        end).
Proof.
  unfold _check_spend_limits, spend_limits_body, per_tx_ceiling, mem.
  intros [Hn | [sl Hs]].
  - rewrite Hn. reflexivity.
  - rewrite Hs. simpl.
    destruct (lookup "max_spend_per_tx" sl) as [[| | m | | |]|] eqn:Hm;
      intros [Hc | [m' Hc]]; try discriminate; try reflexivity.
    simpl. rewrite Z.leb_antisym. now destruct (m <? value)%Z.
Qed.

End GrantFacts.

Definition weth_grant : SessionKeyGrant :=
  mkGrant 7 1 "0xsessionkey" [("allowed_targets", JList [JStr "WETH"])] 100.

(** C4 fails on the code: the query tests that the target occurs in the text
    of the allowed-targets list, not that it is one of its elements.  A
    grant that allows only WETH is returned for the target ETH. *)
Theorem find_valid_grant_matches_substring :
  find_valid_grant_for_action [weth_grant] 0 1 "ETH" 5 = Ok (Some weth_grant) /\
  allowed_targets_astext (permissions weth_grant)
    = Some ("[" ++ dquote ++ "WETH" ++ dquote ++ "]")%string /\
  ~ declares_target weth_grant "ETH".
Proof.
  split; [reflexivity|]. split; [reflexivity|].
  intros (items & Hl & Hin). vm_compute in Hl. injection Hl as <-.
  destruct Hin as [H|[]]. discriminate H.
Qed.

(* ================================================================== *)
(** ** The provider manager and its circuit breaker
       ([app/services/blockchain/manager.py]) *)

Module Manager.

(** The two settings read by [BlockchainServiceManager.__init__]. *)
Record settings : Type := mkSettings {
  CIRCUIT_BREAKER_FAILURE_THRESHOLD : nat;
  CIRCUIT_BREAKER_RECOVERY_TIMEOUT : Z
}.

(** [app/core/config.py] *)
Definition default_settings : settings := mkSettings 5 300.

Inductive adapter : Type := Primary | Fallback.

(** Modelled from the spec: the class [CircuitBreaker] comes from the
    package pybreaker, whose code is not part of the sources.  The breaker
    is closed with a count of consecutive failures, or open since a given
    instant; an open breaker whose cooldown has elapsed is half-open: the
    next call probes the primary. *)
Inductive breaker_state : Type :=
| Closed (fail_counter : nat)
| Open (opened_at : Z).

(** An entry of the list passed as [exclude]: an exception class, or a
    tuple of classes. *)
Inductive exclusion : Type :=
| OfClass (c : exn_class)
| OfTuple (classes : list exn_class).

(** The breaker as [__init__] builds it: [fail_max], [reset_timeout] and the
    list passed as [exclude]. *)
Record CircuitBreaker : Type := mkBreaker {
  fail_max : nat;
  reset_timeout : Z;
  exclude : list exclusion
}.

(** [CircuitBreaker(fail_max=..., reset_timeout=..., exclude=[(NotImplementedError,)])]:
    the list has one entry, and that entry is the one-element tuple
    [(NotImplementedError,)], not the class. *)
Definition make_breaker (s : settings) : CircuitBreaker :=
  mkBreaker (CIRCUIT_BREAKER_FAILURE_THRESHOLD s)
            (CIRCUIT_BREAKER_RECOVERY_TIMEOUT s)
            [OfTuple [NotImplementedError]].

(** Modelled from the spec: failures of an excluded class do not count.  A
    failure is excluded when its class is an entry of the list; an entry
    that is not a class names none. *)
Definition excluded (b : CircuitBreaker) (e : exn) : bool :=
  existsb (fun entry =>
             match entry with
             | OfClass c => exn_class_eqb (exn_cls e) c
             | OfTuple _ => false
             end) (exclude b).

Definition breaker_open_error (text : string) : exn :=
  mkExn CircuitBreakerError [Text text].

(** Modelled from the spec: [breaker.call_async(func)] at instant [now],
    where [func] is what the guarded call gives if it is invoked.  The
    result is the next state, what the call returns or raises, and whether
    [func] was invoked.
    - closed: the call is made; a success clears the count; an excluded
      failure is re-raised and counts for nothing; any other failure is
      counted, and when the count reaches [fail_max] the breaker opens and
      raises [CircuitBreakerError], otherwise the failure is re-raised;
    - open and cooling down: [CircuitBreakerError], the call is not made;
    - open with the cooldown elapsed: the call is made as a probe; a success
      closes the breaker, a counted failure opens it again. *)
Definition call_async {A : Type} (b : CircuitBreaker) (st : breaker_state)
  (now : Z) (func : result A) : breaker_state * result A * bool :=
  match st with
  | Closed n =>
      match func with
      | Ok v => (Closed 0, Ok v, true)
      | Raise e =>
          if excluded b e then (Closed n, Raise e, true)
          else if (fail_max b <=? S n)%nat
               then (Open now,
                     Raise (breaker_open_error "Failures threshold reached, circuit breaker opened"),
                     true)
               else (Closed (S n), Raise e, true)
      end
  | Open opened_at =>
      if (now <? opened_at + reset_timeout b)%Z
      then (Open opened_at,
            Raise (breaker_open_error "Timeout not elapsed yet, circuit breaker still open"),
            false)
      else
        match func with
        | Ok v => (Closed 0, Ok v, true)
        | Raise e =>
            if excluded b e then (Open opened_at, Raise e, true)
            else (Open now,
                  Raise (breaker_open_error "Trial call failed, circuit breaker opened"),
                  true)
        end
  end.

(** What one call through the manager leaves behind: the breaker's state,
    the value returned or the exception raised to the caller, and the
    adapters invoked, in order. *)
Record managed (A : Type) : Type := mkManaged {
  breaker_after : breaker_state;
  outcome : result A;
  invoked : list adapter
}.
Arguments mkManaged {A} _ _ _.

Definition total_failure (primary_error fallback_error : exn) : exn :=
  mkExn BlockchainServiceException
    ([Text "Both primary and fallback services failed. Primary: "] ++ exn_msg primary_error ++
     [Text ", Fallback: "] ++ exn_msg fallback_error).

(** [BlockchainServiceManager._execute_with_breaker]; [primary] and
    [fallback] are what the two adapters answer to this call if invoked. *)
Definition _execute_with_breaker {A : Type} (b : CircuitBreaker) (st : breaker_state)
  (now : Z) (primary fallback : result A) : managed A :=
  let '(st', r, called) := call_async b st now primary in
  let log := if called then [Primary] else [] in
  match r with
  | Ok v => mkManaged st' (Ok v) log
  | Raise e =>
      if exn_class_eqb (exn_cls e) CircuitBreakerError then
        match fallback with
        | Ok result => mkManaged st' (Ok result) (log ++ [Fallback])
        | Raise fallback_error =>
            mkManaged st' (Raise (total_failure e fallback_error)) (log ++ [Fallback])
        end
      else mkManaged st' (Raise e) log
  end.

(** A call as the manager sees it: the instant and the answer of the primary
    adapter.  The fallback's answers are given the same way. *)
Record call (A : Type) : Type := mkCall {
  at_time : Z;
  primary_answer : result A;
  fallback_answer : result A
}.
Arguments mkCall {A} _ _ _.

(** The breaker's state after a sequence of calls through the manager. *)
Fixpoint after_calls {A : Type} (b : CircuitBreaker) (st : breaker_state)
  (calls : list (call A)) : breaker_state :=
  match calls with
  | [] => st
  | c :: rest =>
      after_calls b
        (breaker_after (_execute_with_breaker b st (at_time c) (primary_answer c) (fallback_answer c)))
        rest
  end.

(** The primary raises a failure that the breaker counts. *)
Definition counted_failure {A : Type} (b : CircuitBreaker) (c : call A) : Prop :=
  exists e, primary_answer c = Raise e /\ excluded b e = false.

Definition raises {A : Type} (c : call A) : Prop :=
  exists e, primary_answer c = @Raise A e.

End Manager.
Import Manager.

(* ================================================================== *)
(** ** Properties of the circuit breaker *)

Section BreakerFacts.

Context {A : Type}.
Variable b : CircuitBreaker.

Lemma after_calls_app (st : breaker_state) (l1 l2 : list (call A)) :
  after_calls b st (l1 ++ l2) = after_calls b (after_calls b st l1) l2.
Proof.
  revert st. induction l1 as [|c l1 IH]; intros st; simpl; [reflexivity|].
  apply IH.
Qed.

(** One counted failure below the threshold adds one to the count. *)
Lemma counted_failure_below (n : nat) (c : call A) :
  counted_failure b c -> (S n < fail_max b)%nat ->
  breaker_after (_execute_with_breaker b (Closed n) (at_time c) (primary_answer c) (fallback_answer c))
    = Closed (S n).
Proof.
  intros (e & He & Hx) Hlt. unfold _execute_with_breaker, call_async.
  rewrite He, Hx.
  destruct (fail_max b <=? S n)%nat eqn:Hle; [apply Nat.leb_le in Hle; lia|].
  destruct (exn_class_eqb (exn_cls e) CircuitBreakerError); [|reflexivity].
  destruct (fallback_answer c); reflexivity.
Qed.

(** The counted failure that reaches the threshold opens the breaker. *)
Lemma counted_failure_reaching (n : nat) (c : call A) :
  counted_failure b c -> (fail_max b <= S n)%nat ->
  breaker_after (_execute_with_breaker b (Closed n) (at_time c) (primary_answer c) (fallback_answer c))
    = Open (at_time c).
Proof.
  intros (e & He & Hx) Hle. unfold _execute_with_breaker, call_async.
  rewrite He, Hx.
  destruct (fail_max b <=? S n)%nat eqn:Hle'; [|apply Nat.leb_gt in Hle'; lia].
  simpl. destruct (fallback_answer c); reflexivity.
Qed.

Lemma counted_failures_accumulate (calls : list (call A)) (n : nat) :
  Forall (counted_failure b) calls ->
  (n + length calls < fail_max b)%nat ->
  after_calls b (Closed n) calls = Closed (n + length calls).
Proof.
  revert n. induction calls as [|c calls IH]; intros n Hall Hlt; simpl in *.
  - f_equal. lia.
  - inversion Hall as [|? ? Hc Hrest]; subst.
    rewrite counted_failure_below by (auto; lia).
    rewrite IH by (auto; lia). f_equal. lia.
Qed.

(** While an open breaker cools down, a call goes to the fallback alone. *)
Lemma cooling_down_routes_to_fallback (opened_at now : Z) (primary fallback : result A) :
  (now < opened_at + reset_timeout b)%Z ->
  let m := _execute_with_breaker b (Open opened_at) now primary fallback in
  invoked m = [Fallback] /\ breaker_after m = Open opened_at /\
  (forall v, fallback = Ok v -> outcome m = Ok v) /\
  (forall fe, fallback = Raise fe -> exists pe, outcome m = Raise (total_failure pe fe)).
Proof.
  intros Hlt. unfold _execute_with_breaker, call_async.
  apply Z.ltb_lt in Hlt.
  destruct (now <? opened_at + reset_timeout b)%Z; [|discriminate Hlt]. simpl.
  destruct fallback as [v|fe]; simpl.
  - repeat split; try reflexivity; [congruence | discriminate].
  - repeat split; try reflexivity; [discriminate|].
    intros fe' H. injection H as <-. eexists. reflexivity.
Qed.

End BreakerFacts.

(** The list that [__init__] passes excludes no failure at all. *)
Lemma nothing_is_excluded (s : settings) (e : exn) : excluded (make_breaker s) e = false.
Proof. reflexivity. Qed.

Lemma raised_is_counted (A : Type) (s : settings) (c : call A) :
  raises c -> counted_failure (make_breaker s) c.
Proof.
  intros [e He]. exists e. split; [exact He | apply nothing_is_excluded].
Qed.

Definition two_failures_breaker : CircuitBreaker := make_breaker (mkSettings 2 300).

Definition timeout_at (t : Z) : call Z :=
  mkCall t (Raise (mkExn OtherException [Text "provider timeout"])) (Ok 0%Z).

Definition unsupported : exn :=
  mkExn NotImplementedError [Text "not supported by the adapter"].

Definition unsupported_at (t : Z) : call Z := mkCall t (Raise unsupported) (Ok 0%Z).





Unset Implicit Arguments.

(* ================================================================== *)
(** ** Python objects: text, calls and attributes *)

Module PyObject.

Definition has_char (c : ascii) (s : string) : bool :=
  existsb (Ascii.eqb c) (list_ascii_of_string s).

Definition hex2 (n : nat) : string :=
  String (hex_digit (n / 16)) (String (hex_digit (n mod 16)) EmptyString).

(** One character of [repr(s)], for ASCII text, between the quotes [q]. *)
Definition repr_char (q : ascii) (c : ascii) : string :=
  let n := nat_of_ascii c in
  let backslash := ascii_of_nat 92 in
  if (n =? 92)%nat then String backslash (String backslash EmptyString)
  else if Ascii.eqb c q then String backslash (String c EmptyString)
  else if (n =? 10)%nat then String backslash "n"
  else if (n =? 13)%nat then String backslash "r"
  else if (n =? 9)%nat then String backslash "t"
  else if ((n <? 32)%nat || (n =? 127)%nat)%bool then (String backslash "x" ++ hex2 n)%string
  else String c EmptyString.

Fixpoint repr_chars (q : ascii) (s : string) : string :=
  match s with
  | EmptyString => EmptyString
  | String c rest => (repr_char q c ++ repr_chars q rest)%string
  end.

(** [repr(s)] of a string: between single quotes, unless the string holds a
    single quote and no double quote. *)
Definition repr_str (s : string) : string :=
  let dq := ascii_of_nat 34 in
  let q := if (has_char "'"%char s && negb (has_char dq s))%bool then dq else "'"%char in
  String q (repr_chars q s ++ String q EmptyString)%string.

(** [repr(v)], which is also [str(v)] for everything but a string. *)
Fixpoint py_repr (v : json) : string :=
  match v with
  | JNull => "None"
  | JBool true => "True"
  | JBool false => "False"
  | JInt z => decimal z
  | JStr s => repr_str s
  | JList items => "[" ++ joined (map py_repr items) ++ "]"
  | JDict members =>
      "{" ++
      joined ((fix printed (l : list (string * json)) : list string :=
                 match l with
                 | [] => []
                 | (k, x) :: rest => (repr_str k ++ ": " ++ py_repr x) :: printed rest
                 end) members)
      ++ "}"
  end%string.

(** [str(v)] *)
Definition py_str (v : json) : string :=
  match v with
  | JStr s => s
  | other => py_repr other
  end.

(** The text of a message: [str(e)] for an exception [e] raised with it. *)
Fixpoint text_of (m : message) : string :=
  match m with
  | [] => EmptyString
  | Text s :: rest => (s ++ text_of rest)%string
  | Repr v :: rest => (py_repr v ++ text_of rest)%string
  end.

(** The parameters of a method after [self]: the name of each and, when it
    has one, its default value. *)
Definition parameters : Type := list (string * option json).

Definition declared (params : parameters) (k : string) : bool :=
  existsb (fun p => String.eqb k (fst p)) params.

Fixpoint positional_values (params : parameters) (positional : list json) : dict :=
  match params, positional with
  | (name, _) :: params', v :: positional' => (name, v) :: positional_values params' positional'
  | _, _ => []
  end.

(** The parameters left without a value take their default; one that has
    none is missing. *)
Fixpoint with_defaults (method : string) (params : parameters) (given : dict) : result dict :=
  match params with
  | [] => Ok []
  | (name, default) :: params' =>
      match lookup name given, default with
      | Some v, _ => bind (with_defaults method params' given) (fun rest => Ok ((name, v) :: rest))
      | None, Some v => bind (with_defaults method params' given) (fun rest => Ok ((name, v) :: rest))
      | None, None =>
          Raise (mkExn TypeError
                   [Text method; Text "() missing 1 required positional argument: '";
                    Text name; Text "'"])
      end
  end.

(** How Python binds the arguments of a call to the parameters of the
    method: too many positional arguments, a keyword that names no
    parameter, a parameter given twice and a parameter left without a value
    each raise [TypeError]. *)
Definition bind_arguments (method : string) (params : parameters)
  (positional : list json) (keywords : dict) : result dict :=
  if (length params <? length positional)%nat then
    Raise (mkExn TypeError
             [Text method; Text "() takes "; Repr (JInt (Z.of_nat (S (length params))));
              Text " positional arguments but ";
              Repr (JInt (Z.of_nat (S (length positional)))); Text " were given"])
  else
    match find (fun kv => negb (declared params (fst kv))) keywords with
    | Some (k, _) =>
        Raise (mkExn TypeError
                 [Text method; Text "() got an unexpected keyword argument '"; Text k; Text "'"])
    | None =>
        let by_position := positional_values params positional in
        match find (fun kv => mem (fst kv) by_position) keywords with
        | Some (k, _) =>
            Raise (mkExn TypeError
                     [Text method; Text "() got multiple values for argument '"; Text k; Text "'"])
        | None => with_defaults method params (by_position ++ keywords)
        end
    end.

(** The value bound to a parameter. *)
Definition argument (bound : dict) (name : string) : json :=
  match lookup name bound with Some v => v | None => JNull end.

(** An instance: the values of the attributes set on it. *)
Definition instance : Type := dict.

(** A method: the positional and keyword arguments of the call, [self]
    before, and [self] after or the exception raised. *)
Definition method : Type := list json -> dict -> instance -> result instance.

(** A mapped class: its name, the attributes the class defines (columns
    and relationships, [None] on an instance until they are set or loaded)
    and its methods. *)
Record pyclass : Type := mkClass {
  class_name : string;
  class_attributes : list string;
  class_methods : list (string * method)
}.

Definition no_attribute (cls : pyclass) (name : string) : exn :=
  mkExn AttributeError
    [Text "'"; Text (class_name cls); Text "' object has no attribute '"; Text name; Text "'"].

Fixpoint find_method (name : string) (methods : list (string * method)) : option method :=
  match methods with
  | [] => None
  | (name', m) :: rest => if String.eqb name name' then Some m else find_method name rest
  end.

(** [obj.name] for a name that is not a method. *)
Definition getattr (cls : pyclass) (obj : instance) (name : string) : result json :=
  match lookup name obj with
  | Some v => Ok v
  | None =>
      if existsb (String.eqb name) (class_attributes cls) then Ok JNull
      else Raise (no_attribute cls name)
  end.

(** [obj.name = v] *)
Definition setattr (obj : instance) (name : string) (v : json) : instance :=
  assign name v obj.

(** A call of the method [name] of [obj] with positional and keyword
    arguments. *)
Definition call_method (cls : pyclass) (name : string) (positional : list json)
  (keywords : dict) (obj : instance) : result instance :=
  match find_method name (class_methods cls) with
  | Some m => m positional keywords obj
  | None =>
      match getattr cls obj name with
      | Ok v =>
          Raise (mkExn TypeError [Text "'"; Text (type_name v); Text "' object is not callable"])
      | Raise e => Raise e
      end
  end.

(** A call of the class with keyword arguments, the constructor that the
    declarative base gives: each keyword must name an attribute of the
    class. *)
Definition construct (cls : pyclass) (keywords : dict) : result instance :=
  match find (fun kv => negb (existsb (String.eqb (fst kv)) (class_attributes cls))) keywords with
  | Some (k, _) =>
      Raise (mkExn TypeError
               [Text "'"; Text k; Text "' is an invalid keyword argument for ";
                Text (class_name cls)])
  | None => Ok keywords
  end.

(** The SQL expression [func.now()], kept as a marker. *)
Definition sql_now : json := JStr "now()".

End PyObject.
Import PyObject.

(* ================================================================== *)
(** ** The two execution records
       ([app/models/execution.py] and [app/models/workflow_execution.py]) *)

Module ExecutionModel.

(** The duration computed at the end of [complete_execution] and
    [fail_execution] of [app/models/execution.py]: the test
    [self.started_at and self.completed_at] is skipped when [started_at] is
    [None]; otherwise it asks the truth value of [completed_at], which was
    just set to the SQL expression [func.now()], and SQLAlchemy refuses to
    give a SQL expression a truth value. *)
Definition with_duration (self : instance) : result instance :=
  match lookup "started_at" self with
  | None | Some JNull => Ok self
  | Some _ =>
      Raise (mkExn TypeError [Text "Boolean value of this clause is not defined"])
  end.

Definition set_if_truthy (self : instance) (name : string) (v : json) : instance :=
  if json_truthy v then setattr self name v else self.

(** [app/models/execution.py]: [start_execution(self, trigger_data=None)] *)
Definition execution_start_execution : method := fun positional keywords self =>
  bind (bind_arguments "start_execution" [("trigger_data", Some JNull)] positional keywords)
    (fun bound =>
       let self := setattr self "status" (JStr "executing") in
       let self := setattr self "started_at" sql_now in
       Ok (set_if_truthy self "trigger_data" (argument bound "trigger_data"))).

(** [complete_execution(self, action_results=None, transaction_hash=None)] *)
Definition execution_complete_execution : method := fun positional keywords self =>
  bind (bind_arguments "complete_execution"
          [("action_results", Some JNull); ("transaction_hash", Some JNull)]
          positional keywords)
    (fun bound =>
       let self := setattr self "status" (JStr "completed") in
       let self := setattr self "completed_at" sql_now in
       let self := set_if_truthy self "action_results" (argument bound "action_results") in
       let self := set_if_truthy self "transaction_hash" (argument bound "transaction_hash") in
       with_duration self).

(** [fail_execution(self, error_message, error_details=None)] *)
Definition execution_fail_execution : method := fun positional keywords self =>
  bind (bind_arguments "fail_execution"
          [("error_message", None); ("error_details", Some JNull)] positional keywords)
    (fun bound =>
       let self := setattr self "status" (JStr "failed") in
       let self := setattr self "completed_at" sql_now in
       let self := setattr self "error_message" (argument bound "error_message") in
       let self := set_if_truthy self "error_details" (argument bound "error_details") in
       with_duration self).

(** The class [WorkflowExecution] of [app/models/execution.py], with the
    columns it declares and inherits and the three methods whose names the
    engine uses.  It has no attribute [current_node_id] or [execution_data]
    and no method [advance_to_node]. *)
Definition execution_py : pyclass :=
  mkClass "WorkflowExecution"
    ["id"; "created_at"; "updated_at"; "user_id";
     "workflow_id"; "status"; "trigger_data"; "action_results"; "error_message";
     "error_details"; "started_at"; "completed_at"; "execution_duration_ms";
     "execution_cost_usd"; "gas_used"; "gas_price_gwei"; "transaction_hash";
     "block_number"; "chain_id"; "retry_count"; "is_retry"; "parent_execution_id";
     "workflow"]
    [("start_execution", execution_start_execution);
     ("complete_execution", execution_complete_execution);
     ("fail_execution", execution_fail_execution)].

(** [app/models/workflow_execution.py]: [start_execution(self, start_node_id)] *)
Definition workflow_execution_start_execution : method := fun positional keywords self =>
  bind (bind_arguments "start_execution" [("start_node_id", None)] positional keywords)
    (fun bound =>
       let self := setattr self "status" (JStr "IN_PROGRESS") in
       let self := setattr self "started_at" sql_now in
       let self := setattr self "completed_at" JNull in
       let self := setattr self "result" JNull in
       let self := setattr self "current_node_id" (argument bound "start_node_id") in
       Ok (setattr self "execution_data" (JDict []))).

(** [advance_to_node(self, next_node_id)] *)
Definition workflow_execution_advance_to_node : method := fun positional keywords self =>
  bind (bind_arguments "advance_to_node" [("next_node_id", None)] positional keywords)
    (fun bound =>
       let self := setattr self "status" (JStr "IN_PROGRESS") in
       Ok (setattr self "current_node_id" (argument bound "next_node_id"))).

(** [complete_execution(self, final_result)] *)
Definition workflow_execution_complete_execution : method := fun positional keywords self =>
  bind (bind_arguments "complete_execution" [("final_result", None)] positional keywords)
    (fun bound =>
       let self := setattr self "status" (JStr "COMPLETED") in
       let self := setattr self "completed_at" sql_now in
       let self := setattr self "result" (argument bound "final_result") in
       Ok (setattr self "current_node_id" JNull)).

(** [fail_execution(self, error)] *)
Definition workflow_execution_fail_execution : method := fun positional keywords self =>
  bind (bind_arguments "fail_execution" [("error", None)] positional keywords)
    (fun bound =>
       let failed_at_node :=
         match lookup "current_node_id" self with Some v => v | None => JNull end in
       let self := setattr self "status" (JStr "FAILED") in
       let self := setattr self "completed_at" sql_now in
       Ok (setattr self "result"
             (JDict [("error", JStr (py_str (argument bound "error")));
                     ("failed_at_node", failed_at_node)]))).

(** The class [WorkflowExecution] of [app/models/workflow_execution.py],
    which the engine does not import. *)
Definition workflow_execution_py : pyclass :=
  mkClass "WorkflowExecution"
    ["id"; "workflow_id"; "status"; "started_at"; "completed_at"; "current_node_id";
     "execution_data"; "result"; "transaction_hash"; "workflow"]
    [("start_execution", workflow_execution_start_execution);
     ("advance_to_node", workflow_execution_advance_to_node);
     ("complete_execution", workflow_execution_complete_execution);
     ("fail_execution", workflow_execution_fail_execution)].

End ExecutionModel.
Import ExecutionModel.

Example repr_forms :
  py_repr (JDict [("message", JStr "Workflow has no start node.")])
    = "{'message': 'Workflow has no start node.'}" /\
  repr_str "it's" = String (ascii_of_nat 34) ("it's" ++ String (ascii_of_nat 34) "") /\
  py_repr (JList [JNull; JBool true; JInt (-5)]) = "[None, True, -5]".
Proof. repeat split; reflexivity. Qed.

(** The calls the engine makes on its execution record, tried on the class
    it imports: both keyword calls are refused, and the method
    [advance_to_node] and the attribute [current_node_id] do not exist. *)
Example calls_on_the_imported_class :
  (exists e, call_method execution_py "start_execution" [] [("start_node_id", JStr "n1")] []
               = Raise e /\ exn_cls e = TypeError) /\
  (exists e, call_method execution_py "fail_execution" [] [("error", JDict [])] []
               = Raise e /\ exn_cls e = TypeError) /\
  (exists e, call_method execution_py "advance_to_node" [JNull] [] [] = Raise e /\
             exn_cls e = AttributeError) /\
  (exists e, getattr execution_py [] "current_node_id" = Raise e /\ exn_cls e = AttributeError) /\
  (exists e, getattr execution_py [] "execution_data" = Raise e /\ exn_cls e = AttributeError).
Proof. repeat split; eexists; split; reflexivity. Qed.

(* ================================================================== *)
(** ** The graph execution engine
       ([ActionExecutorService.execute_for_workflow]) *)

Module Engine.

(** What a run does to the outside world, in order: a loop iteration begins
    at a node, the grant resolver is asked, a message is signed, the
    provider manager is asked to execute, the session is committed. *)
Inductive event : Type :=
| EvNode (id : string)
| EvGrantLookup (id : string) (now : Z) (target_contract : json) (value : Z)
| EvSign (grant : Z)
| EvExecute (action_type : string) (quote_id : string)
| EvCommit.

(** Computations that log events and may raise. *)
Definition M (A : Type) : Type := (result A * list event)%type.

Definition ret {A : Type} (a : A) : M A := (Ok a, []).
Definition raise {A : Type} (e : exn) : M A := (Raise e, []).
Definition lift {A : Type} (r : result A) : M A := (r, []).
Definition emit (ev : event) : M unit := (Ok tt, [ev]).

Definition bindM {A B : Type} (m : M A) (k : A -> M B) : M B :=
  match m with
  | (Ok a, l) => let (r, l') := k a in (r, l ++ l')
  | (Raise e, l) => (Raise e, l)
  end.

Notation "x <- m ;; k" := (bindM m (fun x => k))
  (at level 61, m at next level, right associativity).
Notation "m ;;; k" := (bindM m (fun _ => k))
  (at level 61, right associativity).

Record SwapQuote : Type := mkSwapQuote {
  swap_quote_id : string; from_amount : string; route : list dict; swap_dict : json }.
Record BridgeQuote : Type := mkBridgeQuote {
  bridge_quote_id : string; bridge_amount : string; bridge_dict : json }.
Record StakingQuote : Type := mkStakingQuote {
  staking_quote_id : string; staking_amount : string;
  staking_pool_address : string; staking_dict : json }.
Record LendingQuote : Type := mkLendingQuote {
  lending_quote_id : string; lending_amount : string;
  lending_pool_address : string; lending_dict : json }.

Inductive quote : Type :=
| QSwap (q : SwapQuote)
| QBridge (q : BridgeQuote)
| QStaking (q : StakingQuote)
| QLending (q : LendingQuote).

Definition quote_id (q : quote) : string :=
  match q with
  | QSwap q => swap_quote_id q
  | QBridge q => bridge_quote_id q
  | QStaking q => staking_quote_id q
  | QLending q => lending_quote_id q
  end.

(** [quote.dict()] *)
Definition quote_dict (q : quote) : json :=
  match q with
  | QSwap q => swap_dict q
  | QBridge q => bridge_dict q
  | QStaking q => staking_dict q
  | QLending q => lending_dict q
  end.

(** [quote.from_amount] when the quote has that attribute, else
    [quote.amount]; every quote class has one of the two. *)
Definition amount_to_check (q : quote) : option string :=
  match q with
  | QSwap q => Some (from_amount q)
  | QBridge q => Some (bridge_amount q)
  | QStaking q => Some (staking_amount q)
  | QLending q => Some (lending_amount q)
  end.

Record TransactionResult : Type := mkTx {
  tx_hash : string;
  tx_status : string
}.

(** The names bound in the module [action_executor_service] when its
    methods run: what lines 2-13 import, the logger and the class. *)
Definition module_names : list string :=
  ["logging"; "Session"; "select"; "datetime"; "re"; "op";
   "Workflow"; "WorkflowStatus"; "WorkflowExecution"; "ExecutionStatus";
   "blockchain_manager"; "BlockchainServiceException"; "SwapQuote"; "TransactionResult";
   "BridgeQuote"; "StakingQuote"; "LendingQuote"; "OnchainData";
   "signing_service"; "SigningException"; "logger"; "ActionExecutorService"].

(** What the engine runs in.  Python looks a global name up when the line
    that uses it runs, so the names bound in the module and the class that
    the name [WorkflowExecution] denotes are part of it; the program as it
    is written has [module_names] and [execution_py] there.  The other
    fields are the collaborators.  The last argument but one of the
    database operations is the line of the call, and the number that
    follows, like the first argument of the other collaborators, is the
    number of the loop iteration, so that answers may change over time.
    [get_onchain_data] and the quote functions stand for the provider
    manager; [compare] for the comparison that [_handle_condition] makes on
    floating-point numbers, or on strings when the conversion fails;
    [sign_message] for the vault and the signer; [execute_action] for the
    four execute methods of the manager; [db_begin] and [db_query] for the
    transaction and the query of lines 28-31; [db_refresh] gives the record
    as the database reloads it. *)
Record environment : Type := mkEnv {
  bound_names : list string;
  execution_class : pyclass;
  get_onchain_data : nat -> json -> json -> result json;
  compare : string -> json -> json -> result bool;
  get_swap_quote : nat -> dict -> string -> result SwapQuote;
  get_bridge_quote : nat -> dict -> string -> result BridgeQuote;
  get_staking_quote : nat -> dict -> string -> result StakingQuote;
  get_lending_quote : nat -> dict -> string -> result LendingQuote;
  grants : list SessionKeyGrant;
  utcnow : nat -> Z;
  sign_message : nat -> SessionKeyGrant -> string -> result string;
  execute_action : nat -> string -> string -> string -> string -> result TransactionResult;
  db_begin : result unit;
  db_query : result unit;
  db_commit : nat -> nat -> result unit;
  db_refresh : nat -> nat -> instance -> result instance
}.

(** The environment with the module as it is written: the names that the
    source binds and the class that it imports. *)
Definition as_written (env : environment) : environment :=
  mkEnv module_names execution_py
        (get_onchain_data env) (compare env)
        (get_swap_quote env) (get_bridge_quote env)
        (get_staking_quote env) (get_lending_quote env)
        (grants env) (utcnow env) (sign_message env) (execute_action env)
        (db_begin env) (db_query env) (db_commit env) (db_refresh env).

(** Reading a global name. *)
Definition global_name (env : environment) (name : string) : result unit :=
  if existsb (String.eqb name) (bound_names env) then Ok tt
  else Raise (mkExn NameError [Text "name '"; Text name; Text "' is not defined"]).

(** [config.get(k)] *)
Definition get (config : dict) (k : string) : json :=
  match lookup k config with Some v => v | None => JNull end.

Definition missing_fields (text : string) : exn := mkExn ValueError [Text text].

Definition all_truthy (config : dict) (fields : list string) : bool :=
  forallb (fun k => json_truthy (get config k)) fields.

(** The operators of [_handle_condition]. *)
Definition ops : list string := [">"; "<"; ">="; "<="; "=="; "!="].

(** [_handle_condition]: the four fields are checked, the on-chain value is
    read, the operator looked up and the comparison made. *)
Definition _handle_condition (env : environment) (i : nat) (config : dict) : result bool :=
  let source := get config "source" in
  let operator_str := get config "operator" in
  let target_value := get config "value" in
  let chain := get config "chain" in
  if negb (all_truthy config ["source"; "operator"; "chain"])
     || match target_value with JNull => true | _ => false end
  then Raise (missing_fields
                "Condition node config is missing required fields (source, operator, value, chain).")
  else
    bind (get_onchain_data env i source chain) (fun actual_value =>
      match operator_str with
      | JList _ | JDict _ =>
          Raise (mkExn TypeError
                   [Text "unhashable type: '"; Text (type_name operator_str); Text "'"])
      | JStr o =>
          if existsb (String.eqb o) ops then compare env o actual_value target_value
          else Raise (mkExn ValueError
                        [Text "Unsupported operator '"; Text o; Text "' in condition node."])
      | other =>
          Raise (mkExn ValueError
                   [Text "Unsupported operator '"; Repr other; Text "' in condition node."])
      end).

(** The four [_handle_*_quote] helpers: every listed field must be truthy
    ([str(config.get('amount'))] always is). *)
Definition _handle_swap_quote (env : environment) (i : nat) (config : dict) (sca : string)
  : result SwapQuote :=
  if all_truthy config ["from_asset"; "to_asset"; "from_chain"; "to_chain"]
  then get_swap_quote env i config sca
  else Raise (missing_fields "Swap action config is missing required fields.").

Definition _handle_bridge_quote (env : environment) (i : nat) (config : dict) (sca : string)
  : result BridgeQuote :=
  if all_truthy config ["asset"; "from_chain"; "to_chain"]
  then get_bridge_quote env i config sca
  else Raise (missing_fields "Bridge action config is missing required fields.").

Definition _handle_staking_quote (env : environment) (i : nat) (config : dict) (sca : string)
  : result StakingQuote :=
  if all_truthy config ["asset"; "from_chain"; "staking_pool"]
  then get_staking_quote env i config sca
  else Raise (missing_fields "Staking action config is missing required fields.").

Definition _handle_lending_quote (env : environment) (i : nat) (config : dict) (sca : string)
  : result LendingQuote :=
  if all_truthy config ["asset"; "from_chain"; "lending_pool"]
  then get_lending_quote env i config sca
  else Raise (missing_fields "Lending supply action config is missing required fields.").

(** [_get_quote_for_action]: the quote, the message to sign and the target
    contract. *)
Definition _get_quote_for_action (env : environment) (i : nat) (action_type : string)
  (config : dict) (sca : string) : result (quote * string * json) :=
  if String.eqb action_type "swap" then
    bind (_handle_swap_quote env i config sca) (fun q =>
      bind (match route q with
            | first :: _ =>
                match lookup "toTokenAddress" first with
                | Some address => Ok address
                | None => Raise (mkExn KeyError [Text "'toTokenAddress'"])
                end
            | [] => Ok (get config "from_asset")
            end) (fun target_contract =>
        Ok (QSwap q, swap_quote_id q, target_contract)))
  else if String.eqb action_type "bridge" then
    bind (_handle_bridge_quote env i config sca) (fun q =>
      Ok (QBridge q, bridge_quote_id q, get config "asset"))
  else if String.eqb action_type "stake" then
    bind (_handle_staking_quote env i config sca) (fun q =>
      Ok (QStaking q, staking_quote_id q, JStr (staking_pool_address q)))
  else if String.eqb action_type "supply_asset" then
    bind (_handle_lending_quote env i config sca) (fun q =>
      Ok (QLending q, lending_quote_id q, JStr (lending_pool_address q)))
  else
    Raise (mkExn ValueError
             [Text "Unsupported action type for quoting: '"; Text action_type; Text "'"]).

(** Python's [int(s)] on an ASCII string: optional blanks around, an
    optional sign, then decimal digits that single underscores may
    separate. *)
Definition is_blank (c : ascii) : bool :=
  (code c =? 32)%nat || ((9 <=? code c)%nat && (code c <=? 13)%nat).

Fixpoint drop_blanks (s : string) : string :=
  match s with
  | String c s' => if is_blank c then drop_blanks s' else s
  | EmptyString => EmptyString
  end.

Fixpoint drop_trailing_blanks (s : string) : string :=
  match s with
  | EmptyString => EmptyString
  | String c s' =>
      match drop_trailing_blanks s' with
      | EmptyString => if is_blank c then EmptyString else String c EmptyString
      | r => String c r
      end
  end.

Fixpoint digits (s : string) (acc : Z) (after_digit : bool) : option Z :=
  match s with
  | EmptyString => if after_digit then Some acc else None
  | String c s' =>
      if ((48 <=? code c)%nat && (code c <=? 57)%nat)
      then digits s' (10 * acc + Z.of_nat (code c - 48))%Z true
      else if Ascii.eqb c "_"%char && after_digit then digits s' acc false
      else None
  end.

Definition int (s : string) : result Z :=
  let body := drop_trailing_blanks (drop_blanks s) in
  let parsed :=
    match body with
    | String c rest =>
        if Ascii.eqb c "-"%char then option_map Z.opp (digits rest 0%Z false)
        else if Ascii.eqb c "+"%char then digits rest 0%Z false
        else digits body 0%Z false
    | EmptyString => None
    end in
  match parsed with
  | Some z => Ok z
  | None =>
      Raise (mkExn ValueError
               [Text "invalid literal for int() with base 10: "; Repr (JStr s)])
  end.

(** The text the query binds for the target: a string is itself, [None] is
    the SQL NULL, which no row matches. *)
Definition find_grant (db : list SessionKeyGrant) (now : Z) (uid : Z)
  (target_contract : json) (value : Z) : result (option SessionKeyGrant) :=
  match target_contract with
  | JNull => Ok None
  | JStr t => find_valid_grant_for_action db now uid t value
  | other => find_valid_grant_for_action db now uid (jsonb_text other) value
  end.

Definition no_valid_grant (uid : Z) : exn :=
  mkExn SigningException
    [Text "No valid session key grant found for this action for user "; Repr (JInt uid)].

Definition supported_action (action_type : string) : bool :=
  String.eqb action_type "swap" || String.eqb action_type "bridge" ||
  String.eqb action_type "stake" || String.eqb action_type "supply_asset".

(** [_sign_and_execute] for the node [id]. *)
Definition _sign_and_execute (env : environment) (i : nat) (id : string) (uid : Z)
  (sca : string) (action_type : string) (q : quote) (message_to_sign : string)
  (target_contract : json) : M TransactionResult :=
  amount <- lift (match amount_to_check q with
                  | Some a => Ok a
                  | None => Raise (mkExn ValueError
                      [Text "Quote object does not have a recognizable amount field."])
                  end) ;;
  value <- lift (int amount) ;;
  emit (EvGrantLookup id (utcnow env i) target_contract value) ;;;
  grant <- lift (find_grant (grants env) (utcnow env i) uid target_contract value) ;;
  match grant with
  | None => raise (no_valid_grant uid)
  | Some g =>
      emit (EvSign (grant_id g)) ;;;
      user_signature <- lift (sign_message env i g message_to_sign) ;;
      if supported_action action_type then
        emit (EvExecute action_type (quote_id q)) ;;;
        lift (execute_action env i action_type (quote_id q) user_signature sca)
      else
        raise (mkExn ValueError
                 [Text "Cannot execute unknown action type: "; Text action_type])
  end.

(** [nodes_map.get(id)]: in the dictionary comprehension a later node with
    the same id replaces an earlier one. *)
Definition nodes_map_get (w : workflow) (id : string) : option node :=
  find (fun n => String.eqb id (node_id n)) (rev (nodes w)).

(** [edges_map.get(id, [])] *)
Definition outgoing_edges (w : workflow) (id : string) : list edge :=
  filter (fun e => String.eqb id (edge_source e)) (edges w).

(** [edge.get('label') == l] *)
Definition label_is (l : string) (e : edge) : bool :=
  match edge_label e with
  | Some (JStr l') => String.eqb l' l
  | _ => false
  end.

(** [edge.get('label', 'default') == 'default']: an edge without the key
    qualifies, an edge whose label is [null] does not. *)
Definition is_default (e : edge) : bool :=
  match edge_label e with
  | None => true
  | Some (JStr l') => String.eqb l' "default"
  | Some _ => false
  end.

(** [next((edge for edge in outgoing_edges if ...), None)] and the
    [next_edge.get('target')] that follows it. *)
Definition next_target (p : edge -> bool) (out : list edge) : option string :=
  option_map edge_target (find p out).

(** [execution.execution_data.setdefault('nodes', {})[id] = {"output": out}] *)
Definition record_output (d : dict) (id : string) (node_output : json) : result dict :=
  match lookup "nodes" d with
  | None => Ok (assign "nodes" (JDict [(id, JDict [("output", node_output)])]) d)
  | Some (JDict by_node) =>
      Ok (assign "nodes" (JDict (assign id (JDict [("output", node_output)]) by_node)) d)
  | Some other =>
      Raise (mkExn TypeError
               [Text "'"; Text (type_name other); Text "' object does not support item assignment"])
  end.

Definition bool_text (b : bool) : string := if b then "True" else "False".

(** [_resolve_inputs(action_config, execution.execution_data)] for whatever
    the attribute holds: the walk starts from that value. *)
Definition resolve_from (value : json) (context : json) : result json :=
  match value with
  | JStr s =>
      match placeholder_match s with
      | Some group1 =>
          let path := strip group1 in
          wrap_errors s
            (bind (walk (key_parts path) context) (fun resolved_value =>
               match resolved_value with
               | JNull =>
                   Raise (mkExn ValueError
                            [Text "Could not resolve placeholder '"; Text s; Text "'. Path '";
                             Text path; Text "' not found in execution data: "; Repr context])
               | _ => Ok resolved_value
               end))
      | None => Ok value
      end
  | _ => Ok value
  end.

Fixpoint resolve_items_from (items : dict) (context : json) (resolved_config : dict)
  : result dict :=
  match items with
  | [] => Ok resolved_config
  | (key, value) :: rest =>
      bind (resolve_from value context) (fun v =>
        resolve_items_from rest context (assign key v resolved_config))
  end.

Definition resolve_with (config : dict) (execution_data : json) : result dict :=
  match execution_data with
  | JDict d => _resolve_inputs config d
  | other => resolve_items_from config other []
  end.

(** The statement of line 118 on whatever the attribute holds. *)
Definition store_output (execution_data : json) (id : string) (node_output : json)
  : result json :=
  match execution_data with
  | JDict d => bind (record_output d id node_output) (fun d' => Ok (JDict d'))
  | other =>
      Raise (mkExn AttributeError
               [Text "'"; Text (type_name other); Text "' object has no attribute 'setdefault'"])
  end.

(** Computations on the execution record: they log events, may raise, and
    change the attributes of the record, which keeps the changes made before
    an exception. *)
Definition St (A : Type) : Type := instance -> (result A * instance * list event)%type.

Definition st_ret {A : Type} (a : A) : St A := fun ex => (Ok a, ex, []).
Definition st_lift {A : Type} (r : result A) : St A := fun ex => (r, ex, []).
Definition st_log {A : Type} (m : M A) : St A := fun ex => (fst m, ex, snd m).

Definition st_bind {A B : Type} (m : St A) (k : A -> St B) : St B := fun ex =>
  match m ex with
  | (Ok a, ex', l) => let '(r, ex'', l') := k a ex' in (r, ex'', l ++ l')
  | (Raise e, ex', l) => (Raise e, ex', l)
  end.

Notation "x <~ m ;; k" := (st_bind m (fun x => k))
  (at level 61, m at next level, right associativity).
Notation "m ~> k" := (st_bind m (fun _ => k))
  (at level 61, right associativity).

(** [execution.name] *)
Definition read (env : environment) (name : string) : St json := fun ex =>
  (getattr (execution_class env) ex name, ex, []).

(** [execution.name = v] *)
Definition write (name : string) (v : json) : St unit := fun ex =>
  (Ok tt, setattr ex name v, []).

(** A call of a method of the execution record. *)
Definition call (env : environment) (name : string) (positional : list json)
  (keywords : dict) : St unit := fun ex =>
  match call_method (execution_class env) name positional keywords ex with
  | Ok ex' => (Ok tt, ex', [])
  | Raise e => (Raise e, ex, [])
  end.

(** [await self.db.commit()] at the given line. *)
Definition commit (env : environment) (line i : nat) : St unit := fun ex =>
  match db_commit env line i with
  | Ok _ => (Ok tt, ex, [EvCommit])
  | Raise e => (Raise e, ex, [])
  end.

(** [await self.db.refresh(execution)] at the given line. *)
Definition refresh (env : environment) (line i : nat) : St unit := fun ex =>
  match db_refresh env line i ex with
  | Ok ex' => (Ok tt, ex', [])
  | Raise e => (Raise e, ex, [])
  end.

Definition optional (id : option string) : json :=
  match id with Some s => JStr s | None => JNull end.

(** Lines 118-121: the output is stored, the cursor advanced, the session
    committed and the record reloaded. *)
Definition record_and_advance (env : environment) (i : nat) (id : string)
  (node_output : json) (next_node_id : option string) : St unit :=
  execution_data <~ read env "execution_data" ;;
  stored <~ st_lift (store_output execution_data id node_output) ;;
  write "execution_data" stored ~>
  call env "advance_to_node" [optional next_node_id] [] ~>
  commit env 120 i ~>
  refresh env 121 i.

(** The branch [if action_type == 'condition'], lines 78-90. *)
Definition condition_branch (env : environment) (i : nat) (w : workflow) (id : string)
  (resolved_config : dict) : St (json * option string) :=
  condition_met <~ st_lift (_handle_condition env i resolved_config) ;;
  let node_output :=
    JDict [("result", JBool condition_met);
           ("message", JStr ("Condition evaluated to " ++ bool_text condition_met)%string)] in
  let label_to_find := if condition_met then "on_true" else "on_false" in
  st_ret (node_output, next_target (label_is label_to_find) (outgoing_edges w id)).

(** The [else] branch, lines 92-116, which handles all transactional
    actions. *)
Definition transaction_branch (env : environment) (i : nat) (w : workflow) (id : string)
  (action_type : string) (resolved_config : dict) : St (json * option string) :=
  let sca := wf_sca_address w in
  quoted <~ st_lift (_get_quote_for_action env i action_type resolved_config sca) ;;
  let '(q, message_to_sign, target_contract) := quoted in
  tx_result <~ st_log (_sign_and_execute env i id (wf_user_id w) sca action_type q
                         message_to_sign target_contract) ;;
  write "transaction_hash" (JStr (tx_hash tx_result)) ~>
  let node_output :=
    JDict [("tx_hash", JStr (tx_hash tx_result));
           ("status", JStr (tx_status tx_result));
           ("quote", quote_dict q)] in
  st_ret (node_output, next_target is_default (outgoing_edges w id)).

(** The body of the [while] loop, lines 62-121, at the node that the cursor
    names; a cursor that is not a string names no node.  The messages
    logged at lines 71 and 127 read [execution.id]. *)
Definition run_node (env : environment) (i : nat) (w : workflow) (cursor : json) : St unit :=
  match cursor with
  | JList _ | JDict _ =>
      st_lift (Raise (mkExn TypeError
                        [Text "unhashable type: '"; Text (type_name cursor); Text "'"]))
  | JStr id =>
      match nodes_map_get w id with
      | None =>
          st_lift (Raise (mkExn ValueError
                            [Text "Node with ID '"; Text id;
                             Text "' not found in workflow definition."]))
      | Some action_node =>
          st_log (emit (EvNode id)) ~>
          let action_type := node_type action_node in
          read env "id" ~>
          execution_data <~ read env "execution_data" ;;
          resolved_config <~ st_lift (resolve_with (node_config action_node) execution_data) ;;
          step <~ (if String.eqb action_type "condition"
                   then condition_branch env i w id resolved_config
                   else transaction_branch env i w id action_type resolved_config) ;;
          record_and_advance env i id (fst step) (snd step)
      end
  | other =>
      st_lift (Raise (mkExn ValueError
                        [Text "Node with ID '"; Text (py_str other);
                         Text "' not found in workflow definition."]))
  end.

(** The [while] loop, lines 61-121.  [fuel] bounds the number of
    iterations, [i] numbers them; the answer is [true] when the loop was
    left and [false] when the fuel ran out first. *)
Fixpoint loop (env : environment) (w : workflow) (fuel i : nat) : St bool := fun ex =>
  match getattr (execution_class env) ex "current_node_id" with
  | Raise e => (Raise e, ex, [])
  | Ok cursor =>
      if json_truthy cursor then
        match fuel with
        | O => (Ok false, ex, [])
        | S fuel' =>
            match run_node env i w cursor ex with
            | (Ok _, ex', l) =>
                let '(r, ex'', l') := loop env w fuel' (S i) ex' in (r, ex'', l ++ l')
            | (Raise e, ex', l) => (Raise e, ex', l)
            end
        end
      else (Ok true, ex, [])
  end.

(** Lines 123-127, after the loop. *)
Definition complete (env : environment) : St unit :=
  execution_data <~ read env "execution_data" ;;
  action_results <~ st_lift
    (match execution_data with
     | JDict d => Ok (match lookup "nodes" d with Some v => v | None => JDict [] end)
     | other =>
         Raise (mkExn AttributeError
                  [Text "'"; Text (type_name other); Text "' object has no attribute 'get'"])
     end) ;;
  transaction_hash <~ read env "transaction_hash" ;;
  call env "complete_execution" [action_results; transaction_hash] [] ~>
  read env "id" ~>
  st_ret tt.

(** The [try] block, lines 61-127. *)
Definition try_block (env : environment) (w : workflow) (fuel : nat) : St bool :=
  left <~ loop env w fuel 0 ;;
  if left then complete env ~> st_ret true else st_ret false.

(** The [except] clause, lines 129-131: the message logged at line 130
    reads [execution.id] and [execution.current_node_id]. *)
Definition on_exception (env : environment) (e : exn) : St unit :=
  read env "id" ~>
  read env "current_node_id" ~>
  call env "fail_execution" [] [("error", JDict [("message", JStr (text_of (exn_msg e)))])].

(** How a call of [execute_for_workflow] ends: it returns, it hands an
    exception to its caller, or (in the model only) the fuel given to the
    [while] loop runs out before the loop ends. *)
Inductive ending : Type :=
| Returned (ex : instance)
| Propagated (e : exn)
| OutOfFuel (ex : instance).

Record run : Type := mkRun { final : ending; log : list event }.

(** The [finally] clause, line 134, after a block that ended with
    [outcome]. *)
Definition finally (env : environment) (fuel : nat) (outcome : result unit) (ex : instance)
  (l : list event) : run :=
  match commit env 134 fuel ex with
  | (Ok _, ex', l') =>
      match outcome with
      | Ok _ => mkRun (Returned ex') (l ++ l')
      | Raise e => mkRun (Propagated e) (l ++ l')
      end
  | (Raise e, _, l') => mkRun (Propagated e) (l ++ l')
  end.

(** Lines 60-134: the [try] statement. *)
Definition guarded (env : environment) (w : workflow) (fuel : nat) (ex : instance) : run :=
  match try_block env w fuel ex with
  | (Ok true, ex', l) => finally env fuel (Ok tt) ex' l
  | (Ok false, ex', l) => mkRun (OutOfFuel ex') l
  | (Raise e, ex', l) =>
      match on_exception env e ex' with
      | (r, ex'', l') => finally env fuel r ex'' (l ++ l')
      end
  end.

(** Lines 40-53, up to the [try] statement: the record is created and
    started, or failed when the graph has no start node. *)
Definition start (env : environment) (w : workflow) : St bool :=
  match start_node_id w with
  | Some (String c rest) =>
      call env "start_execution" [] [("start_node_id", JStr (String c rest))] ~>
      commit env 51 0 ~>
      refresh env 52 0 ~>
      read env "id" ~>
      st_ret true
  | _ =>
      call env "fail_execution" []
        [("error", JDict [("message", JStr "Workflow has no start node.")])] ~>
      commit env 46 0 ~>
      st_ret false
  end.

(** [execute_for_workflow] on the id of the workflow [w] of the table.
    Line 30 reads the global names [select], [Workflow] and [selectinload]
    while it builds the query, and line 40 the name [WorkflowExecution]. *)
Definition execute_for_workflow (env : environment) (fuel : nat) (w : workflow) : run :=
  match bind (db_begin env) (fun _ =>
        bind (global_name env "select") (fun _ =>
        bind (global_name env "Workflow") (fun _ =>
        bind (global_name env "selectinload") (fun _ =>
        bind (db_query env) (fun _ =>
        bind (global_name env "WorkflowExecution") (fun _ =>
        construct (execution_class env) [("workflow_id", JInt (wf_id w))])))))) with
  | Raise e => mkRun (Propagated e) []
  | Ok execution =>
      match start env w execution with
      | (Raise e, _, l) => mkRun (Propagated e) l
      | (Ok false, ex, l) => mkRun (Returned ex) l
      | (Ok true, ex, l) =>
          let r := guarded env w fuel ex in
          mkRun (final r) (l ++ log r)
      end
  end.

(** The nodes at which an iteration of the loop ran, in order. *)
Definition visited (l : list event) : list string :=
  flat_map (fun ev => match ev with EvNode id => [id] | _ => [] end) l.

Definition is_execute (ev : event) : bool :=
  match ev with EvExecute _ _ => true | _ => false end.

End Engine.
Import Engine.

(* ================================================================== *)
(** ** Sample workflows and collaborators *)

Definition unavailable {A : Type} (what : string) : result A :=
  Raise (mkExn OtherException [Text what]).

(** A grant for the pool 0xpool with a ceiling of 100 per transaction. *)
Definition pool_grant : SessionKeyGrant :=
  mkGrant 7 1 "0xkey"
    [("allowed_targets", JList [JStr "0xpool"]);
     ("spend_limits", JDict [("max_spend_per_tx", JInt 100)])]
    1000.

(** Collaborators that quote a stake of [amount] into 0xpool, hold
    [pool_grant], sign and execute without failure, with on-chain values
    that meet every condition and a database without faults.  The module
    of this environment is not the one of the source: it binds
    [selectinload] as well, and its name [WorkflowExecution] denotes the
    class of [app/models/workflow_execution.py]. *)
Definition staking_env (amount : string) : environment :=
  mkEnv ("selectinload" :: module_names) workflow_execution_py
        (fun _ _ _ => Ok (JInt 2))
        (fun _ _ _ => Ok true)
        (fun _ _ _ => unavailable "swap quotes")
        (fun _ _ _ => unavailable "bridge quotes")
        (fun _ _ _ => Ok (mkStakingQuote "q1" amount "0xpool" (JDict [])))
        (fun _ _ _ => unavailable "lending quotes")
        [pool_grant]
        (fun _ => 0%Z)
        (fun _ _ _ => Ok "0xsignature")
        (fun _ _ _ _ _ => Ok (mkTx "0xhash" "confirmed"))
        (Ok tt) (Ok tt)
        (fun _ _ => Ok tt)
        (fun _ _ ex => Ok ex).

(** A condition node followed, when true, by a stake node. *)
Definition stake_workflow : workflow :=
  mkWorkflow 1 1 "0xsca" [] []
    [mkNode "n1" "condition"
       [("source", JStr "price_feed:ETH-USD"); ("operator", JStr ">");
        ("value", JInt 1); ("chain", JStr "base")];
     mkNode "n2" "stake"
       [("asset", JStr "ETH"); ("from_chain", JStr "base"); ("staking_pool", JStr "0xpool")]]
    [mkEdge "n1" "n2" (Some (JStr "on_true"))].

Example int_forms :
  int " 1_000 " = Ok 1000%Z /\ int "-5" = Ok (-5)%Z /\
  (exists e, int "1__0" = Raise e) /\ (exists e, int "1.5" = Raise e).
Proof. repeat split; try reflexivity; eexists; reflexivity. Qed.

(** In the module that binds [selectinload] and the other class, the graph
    is traversed; the call of [complete_execution] with two arguments is
    refused by that class, whose method takes one, and the run ends with
    the record marked failed. *)
Example stake_within_limit :
  log (execute_for_workflow (staking_env "50") 5 stake_workflow) =
    [EvCommit; EvNode "n1"; EvCommit; EvNode "n2";
     EvGrantLookup "n2" 0 (JStr "0xpool") 50; EvSign 7; EvExecute "stake" "q1";
     EvCommit; EvCommit] /\
  exists ex,
    final (execute_for_workflow (staking_env "50") 5 stake_workflow) = Returned ex /\
    lookup "status" ex = Some (JStr "FAILED").
Proof. split; [reflexivity|]. eexists. split; reflexivity. Qed.

(* ================================================================== *)
(** ** What [_sign_and_execute] does before it executes *)

Section SignAndExecute.

Variables (env : environment) (i : nat) (id : string) (uid : Z) (sca : string)
          (action_type : string) (q : quote) (message_to_sign : string)
          (target_contract : json).

Lemma sign_and_execute_cases :
  let m := _sign_and_execute env i id uid sca action_type q message_to_sign target_contract in
  (exists e, m = (Raise e, [])) \/
  (exists amount value,
     amount_to_check q = Some amount /\ int amount = Ok value /\
     let looked := EvGrantLookup id (utcnow env i) target_contract value in
     let found := find_grant (grants env) (utcnow env i) uid target_contract value in
     (exists e, found = Raise e /\ m = (Raise e, [looked])) \/
     (found = Ok None /\ m = (Raise (no_valid_grant uid), [looked])) \/
     (exists g, found = Ok (Some g) /\
        ((exists e, sign_message env i g message_to_sign = Raise e /\
                    m = (Raise e, [looked; EvSign (grant_id g)])) \/
         (exists signature, sign_message env i g message_to_sign = Ok signature /\
            ((supported_action action_type = false /\ snd m = [looked; EvSign (grant_id g)] /\
              exists e, fst m = Raise e) \/
             (supported_action action_type = true /\
              m = (execute_action env i action_type (quote_id q) signature sca,
                   [looked; EvSign (grant_id g); EvExecute action_type (quote_id q)]))))))).
Proof.
  cbv zeta. unfold _sign_and_execute.
  destruct (amount_to_check q) as [amount|] eqn:Ha; cbn [bindM lift fst snd];
    [|left; eexists; reflexivity].
  destruct (int amount) as [value|e] eqn:Hv; cbn [bindM lift fst snd];
    [|left; eexists; reflexivity].
  right. exists amount, value. split; [reflexivity|]. split; [exact Hv|].
  cbn [emit bindM lift fst snd app].
  destruct (find_grant (grants env) (utcnow env i) uid target_contract value) as [[g|]|e];
    cbn [bindM lift raise emit fst snd app].
  - right. right. exists g. split; [reflexivity|].
    destruct (sign_message env i g message_to_sign) as [signature|e];
      cbn [bindM lift raise emit fst snd app].
    + right. exists signature. split; [reflexivity|].
      destruct (supported_action action_type); cbn [bindM lift raise emit fst snd app].
      * right. split; [reflexivity|].
        destruct (execute_action env i action_type (quote_id q) signature sca); reflexivity.
      * left. split; [reflexivity|]. split; [reflexivity|]. eexists. reflexivity.
    + left. exists e. split; reflexivity.
  - right. left. split; reflexivity.
  - left. exists e. split; reflexivity.
Qed.

End SignAndExecute.

(* ================================================================== *)
(** ** What a run can execute *)

Section ExecutedActions.

(** An execute event names one of the four transactional action types. *)
Definition execute_supported (ev : event) : bool :=
  match ev with
  | EvExecute action_type _ => supported_action action_type
  | _ => true
  end.

Definition safe (l : list event) : Prop := forallb execute_supported l = true.

Definition st_safe {A : Type} (m : St A) : Prop := forall ex, safe (snd (m ex)).

Lemma safe_app (l l' : list event) : safe l -> safe l' -> safe (l ++ l').
Proof. unfold safe. intros H H'. now rewrite forallb_app, H, H'. Qed.

Lemma st_bind_safe (A B : Type) (m : St A) (k : A -> St B) :
  st_safe m -> (forall a, st_safe (k a)) -> st_safe (st_bind m k).
Proof.
  intros Hm Hk ex. unfold st_bind. specialize (Hm ex).
  destruct (m ex) as [[[a|e] ex'] l]; cbn [snd] in *; [|exact Hm].
  specialize (Hk a ex'). destruct (k a ex') as [[r ex''] l']. cbn [snd] in *.
  now apply safe_app.
Qed.

Lemma st_ret_safe (A : Type) (a : A) : st_safe (st_ret a).
Proof. intros ex. reflexivity. Qed.

Lemma st_lift_safe (A : Type) (r : result A) : st_safe (st_lift r).
Proof. intros ex. reflexivity. Qed.

Lemma st_log_safe (A : Type) (m : M A) : safe (snd m) -> st_safe (st_log m).
Proof. intros H ex. exact H. Qed.

Lemma read_safe (env : environment) (name : string) : st_safe (read env name).
Proof. intros ex. reflexivity. Qed.

Lemma write_safe (name : string) (v : json) : st_safe (write name v).
Proof. intros ex. reflexivity. Qed.

Lemma call_safe (env : environment) (name : string) (positional : list json) (keywords : dict) :
  st_safe (call env name positional keywords).
Proof. intros ex. unfold call. now destruct (call_method _ _ _ _ _). Qed.

Lemma commit_safe (env : environment) (line i : nat) : st_safe (commit env line i).
Proof. intros ex. unfold commit. now destruct (db_commit env line i). Qed.

Lemma refresh_safe (env : environment) (line i : nat) : st_safe (refresh env line i).
Proof. intros ex. unfold refresh. now destruct (db_refresh env line i ex). Qed.

Create HintDb safe_log.

#[local] Hint Resolve st_ret_safe st_lift_safe read_safe write_safe call_safe commit_safe refresh_safe
  : safe_log.

Ltac safe_steps :=
  repeat first
    [ apply st_bind_safe; [|intros ?]
    | solve [auto with safe_log] ].

Lemma sign_and_execute_safe env i id uid sca action_type q message_to_sign target_contract :
  safe (snd (_sign_and_execute env i id uid sca action_type q message_to_sign target_contract)).
Proof.
  destruct (sign_and_execute_cases env i id uid sca action_type q message_to_sign
              target_contract) as [[e ->]|(amount & value & _ & _ & H)]; [reflexivity|].
  cbv zeta in H.
  destruct H as [(e & _ & ->)|[[_ ->]|(g & _ & [(e & _ & ->)|(s & _ & [(_ & -> & _)|[Hs ->]])])]];
    try reflexivity.
  unfold safe. cbn. now rewrite Hs.
Qed.

Lemma run_node_safe env i w cursor : st_safe (run_node env i w cursor).
Proof.
  unfold run_node. destruct cursor as [| | |id| |]; auto with safe_log.
  destruct (nodes_map_get w id) as [action_node|]; auto with safe_log.
  apply st_bind_safe; [apply st_log_safe; reflexivity|intros _].
  apply st_bind_safe; [auto with safe_log|intros _].
  apply st_bind_safe; [auto with safe_log|intros execution_data].
  apply st_bind_safe; [auto with safe_log|intros resolved_config].
  apply st_bind_safe.
  - destruct (String.eqb (node_type action_node) "condition").
    + unfold condition_branch. safe_steps.
    + unfold transaction_branch.
      apply st_bind_safe; [auto with safe_log|intros [[q message_to_sign] target_contract]].
      apply st_bind_safe; [apply st_log_safe, sign_and_execute_safe|intros tx_result].
      safe_steps.
  - intros step. unfold record_and_advance. safe_steps.
Qed.

Lemma loop_safe env w fuel : forall i, st_safe (loop env w fuel i).
Proof.
  induction fuel as [|fuel IH]; intros i ex; cbn [loop];
    destruct (getattr (execution_class env) ex "current_node_id") as [cursor|e];
    try reflexivity;
    destruct (json_truthy cursor); try reflexivity.
  pose proof (run_node_safe env i w cursor ex) as Hn.
  destruct (run_node env i w cursor ex) as [[[u|e] ex'] l]; cbn [snd] in *; [|exact Hn].
  specialize (IH (S i) ex').
  destruct (loop env w fuel (S i) ex') as [[r ex''] l']. cbn [snd] in *.
  now apply safe_app.
Qed.

Lemma try_block_safe env w fuel : st_safe (try_block env w fuel).
Proof.
  unfold try_block. apply st_bind_safe; [apply loop_safe|intros [|]].
  - unfold complete. safe_steps.
  - auto with safe_log.
Qed.

Lemma finally_safe env fuel outcome ex l : safe l -> safe (log (finally env fuel outcome ex l)).
Proof.
  intros H. unfold finally.
  pose proof (commit_safe env 134 fuel ex) as Hc.
  destruct (commit env 134 fuel ex) as [[[u|e] ex'] l']; cbn [snd] in Hc.
  - destruct outcome; cbn [log]; now apply safe_app.
  - cbn [log]. now apply safe_app.
Qed.

Lemma guarded_safe env w fuel ex : safe (log (guarded env w fuel ex)).
Proof.
  unfold guarded. pose proof (try_block_safe env w fuel ex) as Ht.
  destruct (try_block env w fuel ex) as [[[[|]|e] ex'] l]; cbn [snd] in Ht.
  - now apply finally_safe.
  - exact Ht.
  - assert (st_safe (on_exception env e)) as Hh by (unfold on_exception; safe_steps).
    specialize (Hh ex'). destruct (on_exception env e ex') as [[r ex''] l']. cbn [snd] in Hh.
    apply finally_safe. now apply safe_app.
Qed.

Lemma execute_for_workflow_safe env fuel w : safe (log (execute_for_workflow env fuel w)).
Proof.
  unfold execute_for_workflow.
  destruct (bind (db_begin env) _) as [execution|e]; [|reflexivity].
  assert (st_safe (start env w)) as Hs.
  { unfold start. destruct (start_node_id w) as [[|c rest]|]; safe_steps. }
  specialize (Hs execution).
  destruct (start env w execution) as [[[[|]|e] ex] l]; cbn [snd log] in *; try exact Hs.
  apply safe_app; [exact Hs | apply guarded_safe].
Qed.

End ExecutedActions.

(* ================================================================== *)
(** ** The program as it is written *)

Section AsWritten.

Variables (env : environment) (fuel : nat) (w : workflow).

Definition selectinload_unbound : exn :=
  mkExn NameError [Text "name '"; Text "selectinload"; Text "' is not defined"].

(** Every call ends while line 30 builds its query. *)
Lemma execute_for_workflow_as_written :
  execute_for_workflow (as_written env) fuel w =
    mkRun (Propagated (match db_begin env with
                       | Ok _ => selectinload_unbound
                       | Raise e => e
                       end)) [].
Proof.
  unfold execute_for_workflow. cbn [as_written db_begin].
  destruct (db_begin env) as [u|e]; reflexivity.
Qed.

End AsWritten.

(** Collaborators that quote a stake above the ceiling of the only grant,
    in the module as it is written. *)
Definition over_limit_env : environment := as_written (staking_env "500").




(* ================================================================== *)
(** ** The loop taken by itself *)

(** A condition node whose [on_true] edge leads back to it. *)
Definition cycle_workflow : workflow :=
  mkWorkflow 2 1 "0xsca" [] []
    [mkNode "n1" "condition"
       [("source", JStr "price_feed:ETH-USD"); ("operator", JStr ">");
        ("value", JInt 1); ("chain", JStr "base")]]
    [mkEdge "n1" "n1" (Some (JStr "on_true"))].

(** The record of a run on [cycle_workflow] once the node has run. *)
Definition cycling : instance :=
  match execute_for_workflow (staking_env "50") 1 cycle_workflow with
  | mkRun (OutOfFuel ex) _ => ex
  | _ => []
  end.

Lemma cycle_step (i : nat) :
  run_node (staking_env "50") i cycle_workflow (JStr "n1") cycling
    = (Ok tt, cycling, [EvNode "n1"; EvCommit]).
Proof. reflexivity. Qed.

Lemma cycle_uses_all_fuel (fuel : nat) : forall i,
  exists l,
    loop (staking_env "50") cycle_workflow fuel i cycling = (Ok false, cycling, l) /\
    length (visited l) = fuel.
Proof.
  induction fuel as [|fuel IH]; intros i.
  - exists []. split; reflexivity.
  - destruct (IH (S i)) as (l & Hl & Hlen).
    exists ([EvNode "n1"; EvCommit] ++ l). split.
    + change (loop (staking_env "50") cycle_workflow (S fuel) i cycling)
        with (match run_node (staking_env "50") i cycle_workflow (JStr "n1") cycling with
              | (Ok _, ex', l) =>
                  let '(r, ex'', l') := loop (staking_env "50") cycle_workflow fuel (S i) ex' in
                  (r, ex'', l ++ l')
              | (Raise e, ex', l) => (Raise e, ex', l)
              end).
      rewrite cycle_step, Hl. reflexivity.
    + simpl. now rewrite Hlen.
Qed.

(** The record of that run when the loop is entered. *)
Definition started : instance :=
  match start (staking_env "50") cycle_workflow [("workflow_id", JInt 2)] with
  | (_, ex, _) => ex
  end.

Lemma cycle_start :
  start (staking_env "50") cycle_workflow [("workflow_id", JInt 2)]
    = (Ok true, started, [EvCommit]).
Proof. reflexivity. Qed.

Lemma cycle_first_step :
  run_node (staking_env "50") 0 cycle_workflow (JStr "n1") started
    = (Ok tt, cycling, [EvNode "n1"; EvCommit]).
Proof. reflexivity. Qed.

(** The loop has no bound of its own.  In a module that binds
    [selectinload] and whose execution record is the class of
    [app/models/workflow_execution.py], a well-formed graph with a cycle
    that a condition keeps taking uses up whatever fuel the loop is given:
    the number of iterations passes the number of nodes. *)
Lemma loop_has_no_bound_of_its_own (fuel : nat) :
  well_formed cycle_workflow /\
  exists ex l,
    execute_for_workflow (staking_env "50") (S fuel) cycle_workflow
      = mkRun (OutOfFuel ex) l /\
    length (visited l) = S fuel.
Proof.
  split; [intros e [<-|[]]; simpl; auto|].
  destruct (cycle_uses_all_fuel fuel 1) as (l & Hl & Hlen).
  exists cycling, ([EvCommit; EvNode "n1"; EvCommit] ++ l). split.
  - unfold execute_for_workflow.
    cbn [bind staking_env db_begin db_query global_name bound_names module_names existsb
         String.eqb Ascii.eqb Bool.eqb orb construct execution_class].
    change (construct workflow_execution_py [("workflow_id", JInt (wf_id cycle_workflow))])
      with (@Ok instance [("workflow_id", JInt 2)]).
    cbv iota beta. rewrite cycle_start. unfold guarded, try_block, st_bind.
    change (loop (staking_env "50") cycle_workflow (S fuel) 0 started)
      with (match run_node (staking_env "50") 0 cycle_workflow (JStr "n1") started with
            | (Ok _, ex', l) =>
                let '(r, ex'', l') := loop (staking_env "50") cycle_workflow fuel 1 ex' in
                (r, ex'', l ++ l')
            | (Raise e, ex', l) => (Raise e, ex', l)
            end).
    rewrite cycle_first_step, Hl. unfold st_ret. cbn [final log].
    rewrite app_nil_r. reflexivity.
  - simpl. now rewrite Hlen.
Qed.
(* ================================================================== *)
(** ** The trigger checker for polling events
       ([app/services/trigger_checker_service.py],
        [app/services/event_checkers/]) *)

Module Trigger.

(** An entry of a parsed feed: the instants that [published_parsed] and
    [updated_parsed] denote, [None] for an attribute that is missing or
    empty, and the title, which an entry may lack. *)
Record feed_entry : Type := mkEntry {
  published_parsed : option Z;
  updated_parsed : option Z;
  title : option string
}.

(** What one check of a feed meets outside the program: the result of
    [feedparser.parse], with the flag [bozo] and the entries, and the
    successive readings of [datetime.now().timestamp()] taken while the
    entries are examined. *)
Record parsed_feed : Type := mkFeed {
  bozo : bool;
  entries : list feed_entry;
  now_timestamp : nat -> Z
}.

(** What a checker returns: the flag and the state to store. *)
Definition check_result : Type := (bool * json)%type.

Definition no_state : exn :=
  mkExn AttributeError [Text "'Workflow' object has no attribute 'state'"].

(** [workflow.state]: the class defines no such name, so the read finds
    only what was assigned to the instance. *)
Definition workflow_state (w : workflow) : result json :=
  match lookup "state" (attributes w) with
  | Some v => Ok v
  | None => Raise no_state
  end.

(** [workflow.state or {}] *)
Definition state_or_empty (w : workflow) : result json :=
  bind (workflow_state w) (fun stored =>
    Ok (if json_truthy stored then stored else JDict [])).

(** [v.get(k, default)] on any value: only a dictionary has the method. *)
Definition get_or (v : json) (k : string) (default : json) : result json :=
  match v with
  | JDict d => Ok (match lookup k d with Some x => x | None => default end)
  | other =>
      Raise (mkExn AttributeError
        [Text "'"; Text (type_name other); Text "' object has no attribute 'get'"])
  end.

(** [config.get("params", {})] on the trigger configuration. *)
Definition params_of (w : workflow) : json :=
  match lookup "params" (trigger_config w) with Some v => v | None => JDict [] end.

(** [_get_entry_timestamp(entry)] when [k] readings of the clock have been
    taken: the timestamp and the number of readings afterwards. *)
Definition _get_entry_timestamp (feed : parsed_feed) (k : nat) (entry : feed_entry)
  : Z * nat :=
  match published_parsed entry with
  | Some t => (t, k)
  | None =>
      match updated_parsed entry with
      | Some t => (t, k)
      | None => (now_timestamp feed k, S k)
      end
  end.

(** [max(feed.entries, key=...)] after its first element: the key of each
    entry is computed once, in order, and an entry replaces the best one
    only when its key is greater. *)
Fixpoint max_entry (feed : parsed_feed) (k : nat) (best : feed_entry) (best_key : Z)
  (rest : list feed_entry) : feed_entry * nat :=
  match rest with
  | [] => (best, k)
  | entry :: rest' =>
      let (t, k') := _get_entry_timestamp feed k entry in
      if (best_key <? t)%Z then max_entry feed k' entry t rest'
      else max_entry feed k' best best_key rest'
  end.

(** [latest_entry_timestamp > last_entry_timestamp] *)
Definition newer (latest : Z) (last : json) : result bool :=
  match last with
  | JInt t => Ok (t <? latest)%Z
  | JBool b => Ok ((if b then 1 else 0) <? latest)%Z
  | other =>
      Raise (mkExn TypeError
        [Text "'>' not supported between instances of 'float' and '";
         Text (type_name other); Text "'"])
  end.

(** [latest_entry.title], read for the log line. *)
Definition entry_title (entry : feed_entry) : result string :=
  match title entry with
  | Some t => Ok t
  | None => Raise (mkExn AttributeError [Text "object has no attribute 'title'"])
  end.

Section Checkers.

(** [feedparser.parse], and the checkers of the two other sources; the
    Twitter checker is absent when its token is not configured. *)
Variable parse : json -> result parsed_feed.
Variable twitter_checker : option (workflow -> result check_result).
Variable evm_checker : workflow -> result check_result.

(** The [try] block of [RssCheckerService.check]: [Some] is a [return]
    inside the block, [None] falls through to the final [return]. *)
Definition rss_try (feed_url : json) (state : json) (last_entry_timestamp : json)
  : result (option check_result) :=
  bind (parse feed_url) (fun feed =>
    if bozo feed then Ok (Some (false, state))
    else
      match entries feed with
      | [] => Ok (Some (false, state))
      | first :: others =>
          let (first_key, k) := _get_entry_timestamp feed 0 first in
          let (latest_entry, k') := max_entry feed k first first_key others in
          let latest_entry_timestamp := fst (_get_entry_timestamp feed k' latest_entry) in
          bind (newer latest_entry_timestamp last_entry_timestamp) (fun is_new =>
            if is_new
            then bind (entry_title latest_entry) (fun _ =>
                   Ok (Some (true,
                             JDict [("last_entry_timestamp", JInt latest_entry_timestamp)])))
            else Ok None)
      end).

(** [RssCheckerService.check] *)
Definition rss_check (w : workflow) : result check_result :=
  bind (state_or_empty w) (fun state =>
    bind (get_or (params_of w) "feed_url" JNull) (fun feed_url =>
      if negb (json_truthy feed_url) then Ok (false, state)
      else
        bind (get_or state "last_entry_timestamp" (JInt 0)) (fun last_entry_timestamp =>
          match rss_try feed_url state last_entry_timestamp with
          | Ok (Some answer) => Ok answer
          | Ok None => Ok (false, state)
          | Raise _ => Ok (false, state)
          end))).

(** [checker_map.get(source)] *)
Definition checker_for (source : json) : result (option (workflow -> result check_result)) :=
  match source with
  | JStr name =>
      if String.eqb name "rss" then Ok (Some rss_check)
      else if String.eqb name "twitter" then Ok twitter_checker
      else if String.eqb name "evm" then Ok (Some evm_checker)
      else Ok None
  | JList _ | JDict _ =>
      Raise (mkExn TypeError [Text "unhashable type: '"; Text (type_name source); Text "'"])
  | _ => Ok None
  end.

(** [workflow.state = new_state] *)
Definition set_state (w : workflow) (new_state : json) : workflow :=
  mkWorkflow (wf_id w) (wf_user_id w) (wf_sca_address w) (trigger_config w)
             (assign "state" new_state (attributes w)) (nodes w) (edges w).

(** What a call leaves behind: the flag, the workflow, and the objects added
    to the session. *)
Record polled : Type := mkPolled {
  is_triggered : bool;
  workflow_after : workflow;
  session_after : list workflow
}.

(** [TriggerCheckerService._check_polling_event]; [session] lists the
    objects added to the database session so far. *)
Definition _check_polling_event (session : list workflow) (w : workflow) : result polled :=
  let config := trigger_config w in
  let source := match lookup "source" config with Some v => v | None => JNull end in
  bind (checker_for source) (fun checker_func =>
    match checker_func with
    | None => Ok (mkPolled false w session)
    | Some check =>
        bind (check w) (fun answer =>
          let '(fired, new_state) := answer in
          if fired
          then let w' := set_state w new_state in
               Ok (mkPolled true w' (session ++ [w']))
          else Ok (mkPolled false w session))
    end).

End Checkers.

End Trigger.
Import Trigger.

(* ================================================================== *)
(** ** The EVM checker ([app/services/event_checkers/evm_checker_service.py]) *)

Module EvmChecker.

(** [data[k]] with a string [k]. *)
Definition subscript (data : json) (k : string) : result json :=
  match data with
  | JDict fields =>
      match lookup k fields with
      | Some v => Ok v
      | None => Raise (mkExn KeyError [Repr (JStr k)])
      end
  | JStr _ => Raise (mkExn TypeError [Text "string indices must be integers"])
  | JList _ =>
      Raise (mkExn TypeError [Text "list indices must be integers or slices, not str"])
  | other =>
      Raise (mkExn TypeError
               [Text "'"; Text (type_name other); Text "' object is not subscriptable"])
  end.

(** [int(v)] *)
Definition to_int (v : json) : result Z :=
  match v with
  | JStr s => Engine.int s
  | JInt z => Ok z
  | JBool b => Ok (if b then 1 else 0)%Z
  | other =>
      Raise (mkExn TypeError
               [Text "int() argument must be a string, a bytes-like object or a number, not '";
                Text (type_name other); Text "'"])
  end.

(** [int(tx['blockNumber'])] for one element of the result. *)
Definition block_number (tx : json) : result Z :=
  bind (subscript tx "blockNumber") to_int.

(** The keys that [max(transactions, key=...)] computes, in order. *)
Fixpoint block_numbers (transactions : list json) : result (list Z) :=
  match transactions with
  | [] => Ok []
  | tx :: rest =>
      bind (block_number tx) (fun b =>
        bind (block_numbers rest) (fun bs => Ok (b :: bs)))
  end.

(** What [max] iterates over: the elements of a list, the characters of a
    string, the keys of a dictionary. *)
Definition iterate (v : json) : result (list json) :=
  match v with
  | JList l => Ok l
  | JStr s => Ok (map (fun c => JStr (String c EmptyString)) (list_ascii_of_string s))
  | JDict d => Ok (map (fun kv => JStr (fst kv)) d)
  | other =>
      Raise (mkExn TypeError [Text "'"; Text (type_name other); Text "' object is not iterable"])
  end.

Definition json_is (v : json) (s : string) : bool :=
  match v with JStr s' => String.eqb s' s | _ => false end.

(** [last_checked_block + 1] *)
Definition start_block (last_checked_block : json) : result Z :=
  match last_checked_block with
  | JInt z => Ok (z + 1)%Z
  | JBool b => Ok ((if b then 1 else 0) + 1)%Z
  | JStr _ =>
      Raise (mkExn TypeError
               [Text "can only concatenate str (not "; Text dquote; Text "int";
                Text dquote; Text ") to str"])
  | JList _ =>
      Raise (mkExn TypeError
               [Text "can only concatenate list (not "; Text dquote; Text "int";
                Text dquote; Text ") to list"])
  | other =>
      Raise (mkExn TypeError
               [Text "unsupported operand type(s) for +: '"; Text (type_name other);
                Text "' and 'int'"])
  end.

Section Checker.

(** [self.api_key], [None] when the setting is empty; and the request to
    the transaction-list endpoint for an address from a start block, with
    [raise_for_status] and [json()]. *)
Variable api_key : option string.
Variable txlist : json -> Z -> result json.

(** The [try] block of [_check_wallet_transactions]: [Some] is a [return]
    inside the block, [None] falls through.  Whatever is raised inside the
    block is caught by the caller of this function. *)
Definition wallet_try (address : json) (startblock : Z) (state : json)
  : result (option check_result) :=
  bind (txlist address startblock) (fun data =>
    bind (subscript data "status") (fun status =>
      if json_is status "0" then Ok (Some (false, state))
      else bind (subscript data "status") (fun status' =>
        if json_is status' "1" then
          bind (subscript data "result") (fun transactions =>
            bind (iterate transactions) (fun txs =>
              match txs with
              | [] => Raise (mkExn ValueError [Text "max() arg is an empty sequence"])
              | tx :: rest =>
                  bind (block_numbers (tx :: rest)) (fun blocks =>
                    let newest_block_number := fold_left Z.max (tl blocks) (hd 0%Z blocks) in
                    Ok (Some (true, JDict [("last_checked_block", JInt newest_block_number)])))
              end))
        else Ok None))).

Definition _check_wallet_transactions (w : workflow) (params : json) : result check_result :=
  bind (state_or_empty w) (fun state =>
    bind (get_or params "address" JNull) (fun address =>
      if negb (json_truthy address) then Ok (false, state)
      else
        bind (get_or state "last_checked_block" (JInt 0)) (fun last_checked_block =>
          bind (start_block last_checked_block) (fun startblock =>
            match wallet_try address startblock state with
            | Ok (Some answer) => Ok answer
            | Ok None => Ok (false, state)
            | Raise _ => Ok (false, state)
            end)))).

(** [EvmCheckerService.check] *)
Definition check (w : workflow) : result check_result :=
  match api_key with
  | None => bind (workflow_state w) (fun state => Ok (false, state))
  | Some _ =>
      let params := params_of w in
      bind (get_or params "type" JNull) (fun event_type =>
        if json_is event_type "wallet_transaction"
        then _check_wallet_transactions w params
        else bind (workflow_state w) (fun state => Ok (false, state)))
  end.

End Checker.

End EvmChecker.

(* ================================================================== *)
(** ** The Twitter checker
       ([app/services/event_checkers/twitter_checker_service.py]) *)

Module TwitterChecker.

Section Checker.

(** The two calls on the client: [get_user(username=...)], answering the
    id of the user when the response holds data, and
    [get_users_tweets(id=..., since_id=..., max_results=5)], answering the
    ids of the tweets in the response, newest first. *)
Variable get_user : json -> result (option Z).
Variable get_users_tweets : Z -> json -> result (list Z).

(** The [try] block of [_check_user_tweets]. *)
Definition tweets_try (username : json) (state : json) (last_tweet_id : json)
  : result check_result :=
  bind (get_user username) (fun user =>
    match user with
    | None => Ok (false, state)
    | Some user_id =>
        bind (get_users_tweets user_id last_tweet_id) (fun tweets =>
          match tweets with
          | [] => Ok (false, state)
          | newest_tweet_id :: _ =>
              Ok (true, JDict [("last_tweet_id", JStr (decimal newest_tweet_id))])
          end)
    end).

Definition _check_user_tweets (w : workflow) (params : json) : result check_result :=
  bind (state_or_empty w) (fun state =>
    bind (get_or params "username" JNull) (fun username =>
      if negb (json_truthy username) then Ok (false, state)
      else
        bind (get_or state "last_tweet_id" JNull) (fun last_tweet_id =>
          match tweets_try username state last_tweet_id with
          | Ok answer => Ok answer
          | Raise _ => Ok (false, state)
          end))).

(** [TwitterCheckerService.check] *)
Definition check (w : workflow) : result check_result :=
  let params := params_of w in
  bind (get_or params "type" JNull) (fun event_type =>
    if EvmChecker.json_is event_type "user_tweets"
    then _check_user_tweets w params
    else bind (workflow_state w) (fun state => Ok (false, state))).

End Checker.

End TwitterChecker.

(* ================================================================== *)
(** * Further properties of the modelled code *)

(* ================================================================== *)
(** ** The placeholder pattern *)

Section PlaceholderPattern.

Fixpoint string_forallb (p : ascii -> bool) (s : string) : bool :=
  match s with
  | EmptyString => true
  | String c s' => p c && string_forallb p s'
  end.

(** The string starts with a character that fails [p], or is empty. *)
Definition stops (p : ascii -> bool) (s : string) : Prop :=
  match s with
  | EmptyString => True
  | String c _ => p c = false
  end.

Lemma span_split (p : ascii -> bool) (s : string) :
  s = (fst (span p s) ++ snd (span p s))%string /\
  string_forallb p (fst (span p s)) = true /\
  stops p (snd (span p s)).
Proof.
  induction s as [|c s IH]; simpl; [auto|].
  destruct (p c) eqn:Hc.
  - destruct (span p s) as [run rest]. cbn [fst snd] in *.
    destruct IH as (Heq & Hrun & Hrest). cbn [append string_forallb].
    rewrite Hc, Hrun, <- Heq. auto.
  - cbn [fst snd append string_forallb stops]. auto.
Qed.

Lemma span_of_run (p : ascii -> bool) (run rest : string) :
  string_forallb p run = true -> stops p rest ->
  span p (run ++ rest)%string = (run, rest).
Proof.
  intros Hrun Hrest. induction run as [|c run IH]; simpl in *.
  - destruct rest as [|c rest]; simpl in *; [reflexivity|]. now rewrite Hrest.
  - apply andb_true_iff in Hrun. destruct Hrun as [Hc Hrun].
    rewrite Hc, (IH Hrun). reflexivity.
Qed.

Lemma append_assoc_string (a b c : string) :
  ((a ++ b) ++ c = a ++ (b ++ c))%string.
Proof.
  induction a as [|x a IH]; simpl; [reflexivity|]. now rewrite IH.
Qed.

Lemma placeholder_match_of_run (group1 rest : string) :
  group1 <> EmptyString ->
  string_forallb is_path_char group1 = true ->
  placeholder_match ("{{" ++ group1 ++ "}}" ++ rest)%string = Some group1.
Proof.
  intros Hne Hrun.
  change (("{{" ++ group1 ++ "}}" ++ rest)%string)
    with (String "{" (String "{" (group1 ++ String "}" (String "}" rest)))%string).
  unfold placeholder_match. rewrite Ascii.eqb_refl. cbn [andb].
  rewrite (span_of_run is_path_char group1 (String "}" (String "}" rest)) Hrun)
    by reflexivity.
  destruct group1 as [|b body]; [congruence|]. reflexivity.
Qed.

(** X1: What [placeholder_pattern.match] accepts: the two opening braces, a
    non-empty run of characters of the class, the two closing braces, and
    then anything; group 1 is the run.  A character outside the class
    between the braces (a hyphen, say) makes the match fail.  The text is
    ASCII, on which the class [\w] is letters, digits and the underscore. *)
Theorem placeholder_match_spec (value group1 : string) :
  placeholder_match value = Some group1 <->
  (group1 <> EmptyString /\
   string_forallb is_path_char group1 = true /\
   exists rest, value = ("{{" ++ group1 ++ "}}" ++ rest)%string).
Proof.
  split.
  - unfold placeholder_match.
    destruct value as [|c1 [|c2 s]]; try discriminate.
    destruct (Ascii.eqb c1 "{") eqn:H1; [|discriminate].
    destruct (Ascii.eqb c2 "{") eqn:H2; [|discriminate].
    apply Ascii.eqb_eq in H1, H2. subst c1 c2. cbn [andb].
    destruct (span_split is_path_char s) as (Hs & Hrun & _).
    destruct (span is_path_char s) as [run rest]. cbn [fst snd] in *.
    destruct run as [|b body]; [discriminate|].
    destruct rest as [|d1 [|d2 rest]]; try discriminate.
    destruct (Ascii.eqb d1 "}") eqn:H3; [|discriminate].
    destruct (Ascii.eqb d2 "}") eqn:H4; [|discriminate].
    apply Ascii.eqb_eq in H3, H4. subst d1 d2. cbn [andb].
    intros [= <-]. split; [discriminate|]. split; [exact Hrun|].
    exists rest. rewrite Hs. reflexivity.
  - intros (Hne & Hrun & rest & ->). now apply placeholder_match_of_run.
Qed.

End PlaceholderPattern.

(* ================================================================== *)
(** ** The resolver on whole configurations *)

Section ResolverOnConfigs.

Lemma assign_fresh (k : string) (v : json) (d : dict) :
  ~ In k (map fst d) -> assign k v d = d ++ [(k, v)].
Proof.
  induction d as [|[k' v'] d IH]; simpl; [reflexivity|].
  intros Hn. destruct (String.eqb k k') eqn:E.
  - apply String.eqb_eq in E. subst. now destruct Hn; left.
  - rewrite IH; [reflexivity|]. intros Hin. apply Hn. now right.
Qed.

Lemma resolve_items_unchanged (execution_data : dict) (items : dict) :
  forall acc,
    NoDup (map fst items) ->
    (forall k, In k (map fst items) -> ~ In k (map fst acc)) ->
    (forall k s, In (k, JStr s) items -> placeholder_match s = None) ->
    resolve_items items execution_data acc = Ok (acc ++ items).
Proof.
  induction items as [|[key value] rest IH]; intros acc Hnd Hfresh Hplain; simpl.
  - now rewrite app_nil_r.
  - assert (resolve_value value execution_data = Ok value) as ->.
    { destruct value as [| | | s | |]; try reflexivity.
      apply resolve_value_no_match. apply (Hplain key). now left. }
    cbn [bind]. inversion Hnd as [|? ? Hkey Hrest]; subst.
    rewrite assign_fresh by (apply Hfresh; now left).
    rewrite IH.
    + now rewrite <- app_assoc.
    + exact Hrest.
    + intros k Hk. rewrite map_app, in_app_iff. simpl. intros [Hin|[<-|[]]].
      * apply (Hfresh k); [now right | exact Hin].
      * exact (Hkey Hk).
    + intros k s Hin. apply (Hplain k). now right.
Qed.

(** X2: A configuration in which no string entry begins with a placeholder comes
    back from [_resolve_inputs] as it was, whatever the execution data. *)
Theorem resolve_inputs_plain_config_unchanged (config execution_data : dict) :
  NoDup (map fst config) ->
  (forall k s, In (k, JStr s) config -> placeholder_match s = None) ->
  _resolve_inputs config execution_data = Ok config.
Proof.
  intros Hnd Hplain. unfold _resolve_inputs.
  now rewrite (resolve_items_unchanged execution_data config [] Hnd) by auto.
Qed.

Lemma resolve_inputs_plain_config_unchanged_witness :
  _resolve_inputs [("asset", JStr "ETH"); ("amount", JInt 5); ("note", JStr "pay {{x}}")]
                  [("nodes", JDict [])]
    = Ok [("asset", JStr "ETH"); ("amount", JInt 5); ("note", JStr "pay {{x}}")].
Proof.
  apply resolve_inputs_plain_config_unchanged.
  - repeat constructor; simpl; intuition discriminate.
  - intros k s [H|[H|[H|[]]]]; try discriminate H; injection H as _ <-; reflexivity.
Defined.

(** Strings made of word characters only, and not empty. *)
Definition word_string (s : string) : Prop :=
  s <> EmptyString /\ string_forallb is_word_char s = true.

Lemma remove_char_absent (c : ascii) (s : string) :
  string_forallb (fun a => negb (Ascii.eqb a c)) s = true -> remove_char c s = s.
Proof.
  induction s as [|a s IH]; simpl; [reflexivity|].
  intros H. apply andb_true_iff in H. destruct H as [Ha Hs].
  apply negb_true_iff in Ha. rewrite Ha, IH by exact Hs. reflexivity.
Qed.

Lemma split_absent (sep : ascii) (s : string) :
  string_forallb (fun a => negb (Ascii.eqb a sep)) s = true -> split sep s = [s].
Proof.
  induction s as [|a s IH]; simpl; [reflexivity|].
  intros H. apply andb_true_iff in H. destruct H as [Ha Hs].
  apply negb_true_iff in Ha. rewrite Ha, IH by exact Hs. reflexivity.
Qed.

Lemma split_at_separator (sep : ascii) (a b : string) :
  string_forallb (fun x => negb (Ascii.eqb x sep)) a = true ->
  split sep (a ++ String sep b)%string = a :: split sep b.
Proof.
  induction a as [|x a IH]; simpl.
  - intros _. now rewrite Ascii.eqb_refl.
  - intros H. apply andb_true_iff in H. destruct H as [Hx Ha].
    apply negb_true_iff in Hx. rewrite Hx, IH by exact Ha. reflexivity.
Qed.

Lemma string_forallb_app (p : ascii -> bool) (a b : string) :
  string_forallb p (a ++ b)%string = string_forallb p a && string_forallb p b.
Proof.
  induction a as [|x a IH]; simpl; [reflexivity|]. now rewrite IH, andb_assoc.
Qed.

Lemma string_forallb_weaken (p q : ascii -> bool) (s : string) :
  (forall c, p c = true -> q c = true) ->
  string_forallb p s = true -> string_forallb q s = true.
Proof.
  intros Hpq. induction s as [|c s IH]; simpl; [reflexivity|].
  intros H. apply andb_true_iff in H. destruct H as [Hc Hs].
  now rewrite (Hpq c Hc), IH.
Qed.

Lemma rstrip_keeps_ending (a b : string) :
  b <> EmptyString -> rstrip b = b -> rstrip (a ++ b)%string = (a ++ b)%string.
Proof.
  intros Hne Hb. induction a as [|c a IH]; simpl; [exact Hb|].
  rewrite IH. destruct (a ++ b)%string eqn:E; [|reflexivity].
  destruct a; simpl in E; [congruence | discriminate].
Qed.

(** A word character is none of the characters the path syntax uses. *)
Lemma word_char_plain (c : ascii) :
  is_word_char c = true ->
  is_path_char c = true /\
  Ascii.eqb c "'" = false /\ Ascii.eqb c quote_char = false /\
  Ascii.eqb c "]" = false /\ Ascii.eqb c "[" = false /\ Ascii.eqb c "." = false.
Proof.
  intros H. unfold is_path_char. rewrite H. split; [reflexivity|].
  repeat split;
    match goal with
    | |- Ascii.eqb c ?x = false =>
        destruct (Ascii.eqb c x) eqn:E; [|reflexivity];
        apply Ascii.eqb_eq in E; subst c; discriminate H
    end.
Qed.

(** The path that names the output of the node [id]. *)
Definition output_path (id : string) : string := ("nodes." ++ id ++ ".output")%string.

Lemma output_path_parts (id : string) :
  word_string id -> key_parts (output_path id) = ["nodes"; id; "output"].
Proof.
  intros [Hne Hw]. unfold key_parts, output_path.
  assert (forall c, c = "'"%char \/ c = quote_char \/ c = "]"%char \/ c = "["%char ->
            string_forallb (fun a => negb (Ascii.eqb a c)) ("nodes." ++ id ++ ".output") = true)
    as Hplain.
  { intros c Hc. rewrite !string_forallb_app.
    assert (string_forallb (fun a => negb (Ascii.eqb a c)) id = true) as ->.
    { apply (string_forallb_weaken is_word_char); [|exact Hw].
      intros a Ha. destruct (word_char_plain a Ha) as (_ & H1 & H2 & H3 & H4 & _).
      destruct Hc as [ -> | [ -> | [ -> | -> ] ] ]; now rewrite ?H1, ?H2, ?H3, ?H4. }
    destruct Hc as [ -> | [ -> | [ -> | -> ] ] ]; reflexivity. }
  rewrite (remove_char_absent "'") by (apply Hplain; auto).
  rewrite (remove_char_absent quote_char) by (apply Hplain; auto).
  rewrite (remove_char_absent "]") by (apply Hplain; auto).
  rewrite (split_absent "[") by (apply Hplain; auto).
  cbn [flat_map]. rewrite app_nil_r.
  change ("nodes." ++ id ++ ".output")%string
    with (String "n" (String "o" (String "d" (String "e" (String "s"
            (String "." (id ++ String "." "output")))))))%string.
  cbn [split Ascii.eqb Bool.eqb].
  rewrite split_at_separator.
  - cbn [split Ascii.eqb Bool.eqb filter nonempty].
    destruct id; [congruence | reflexivity].
  - apply (string_forallb_weaken is_word_char); [|exact Hw].
    intros a Ha. destruct (word_char_plain a Ha) as (_ & _ & _ & _ & _ & H5). now rewrite H5.
Qed.

Lemma output_path_matches (id : string) :
  word_string id ->
  placeholder_match ("{{" ++ output_path id ++ "}}")%string = Some (output_path id) /\
  strip (output_path id) = output_path id.
Proof.
  intros [Hne Hw]. split.
  - change ("{{" ++ output_path id ++ "}}")%string
      with ("{{" ++ output_path id ++ "}}" ++ "")%string.
    apply placeholder_match_of_run; [discriminate|].
    unfold output_path. rewrite !string_forallb_app.
    assert (string_forallb is_path_char id = true) as ->.
    { apply (string_forallb_weaken is_word_char); [|exact Hw].
      intros a Ha. now destruct (word_char_plain a Ha). }
    reflexivity.
  - unfold strip, output_path. cbn [append lstrip Ascii.eqb Bool.eqb].
    change (String "n" (String "o" (String "d" (String "e" (String "s"
              (String "." (id ++ ".output")))))))%string
      with (("nodes." ++ id) ++ ".output")%string.
    apply rstrip_keeps_ending; [discriminate | reflexivity].
Qed.

(** X3: The output that the engine records for a node is what a later
    placeholder naming that node's output resolves to: after
    [record_output] has stored [node_output] under the node id, resolving
    the placeholder for nodes.ID.output gives [node_output] back. *)
Theorem resolve_after_record_output
  (data data' : dict) (id key : string) (node_output : json) :
  word_string id ->
  node_output <> JNull ->
  record_output data id node_output = Ok data' ->
  _resolve_inputs [(key, JStr ("{{" ++ output_path id ++ "}}")%string)] data'
    = Ok [(key, node_output)].
Proof.
  intros Hid Hout Hrec.
  destruct (output_path_matches id Hid) as [Hm Hs].
  unfold _resolve_inputs. cbn [resolve_items].
  assert (walk ["nodes"; id; "output"] (JDict data') = Ok node_output) as Hwalk.
  { unfold record_output in Hrec.
    destruct (lookup "nodes" data) as [[| | | | |by_node]|] eqn:Hl; try discriminate;
      injection Hrec as <-; cbn [walk get_step bind];
      rewrite lookup_assign_same; cbn [bind get_step].
    - rewrite lookup_assign_same. cbn [bind get_step lookup]. reflexivity.
    - cbn [lookup]. rewrite String.eqb_refl. cbn [bind get_step lookup]. reflexivity. }
  rewrite (@resolve_value_found data' _ (output_path id) node_output Hm).
  - reflexivity.
  - rewrite Hs, (output_path_parts id Hid). exact Hwalk.
  - exact Hout.
Qed.

Lemma resolve_after_record_output_witness :
  _resolve_inputs [("amount", JStr ("{{" ++ output_path "n1" ++ "}}")%string)]
                  [("nodes", JDict [("n1", JDict [("output", JInt 42)])])]
    = Ok [("amount", JInt 42)].
Proof.
  apply (resolve_after_record_output [] _ "n1" "amount" (JInt 42)).
  - split; [discriminate | reflexivity].
  - discriminate.
  - reflexivity.
Defined.

End ResolverOnConfigs.

(* ================================================================== *)
(** ** More on the grant resolver *)

Section GrantResolver.

(** X4, on a sample: the grant found for the pool satisfies what
    [find_valid_grant_sound] states of a returned grant. *)
Lemma find_valid_grant_sound_witness :
  In pool_grant [pool_grant] /\ user_id pool_grant = 1%Z /\
  (0 < expires_at pool_grant)%Z /\
  astext_contains (permissions pool_grant) "0xpool" = true /\
  _check_spend_limits pool_grant 50 = Ok true.
Proof.
  apply (@find_valid_grant_sound [pool_grant] 0%Z 1%Z "0xpool" 50%Z pool_grant).
  reflexivity.
Defined.

(** X5, on a sample: with a ceiling of 100 the check passes at 100 and
    fails at 101, as [check_spend_limits_integer_ceiling] states. *)
Lemma check_spend_limits_integer_ceiling_witness :
  _check_spend_limits pool_grant 100 = Ok true /\
  _check_spend_limits pool_grant 101 = Ok false.
Proof.
  split.
  - apply (@check_spend_limits_integer_ceiling 100%Z pool_grant).
    + right. eexists. reflexivity.
    + right. exists 100%Z. reflexivity.
  - apply (@check_spend_limits_integer_ceiling 101%Z pool_grant).
    + right. eexists. reflexivity.
    + right. exists 100%Z. reflexivity.
Defined.

Lemma first_within_limits_split (rows : list SessionKeyGrant) (value : Z) (g : SessionKeyGrant) :
  first_within_limits rows value = Ok (Some g) ->
  exists pre post,
    rows = pre ++ g :: post /\
    (forall h, In h pre -> _check_spend_limits h value = Ok false) /\
    _check_spend_limits g value = Ok true.
Proof.
  induction rows as [|r rows IH]; simpl; [discriminate|].
  destruct (_check_spend_limits r value) as [[|]|e] eqn:Hc; simpl; try discriminate.
  - intros [= <-]. exists [], rows. repeat split; auto. intros h [].
  - intros H. destruct (IH H) as (pre & post & -> & Hpre & Hg).
    exists (r :: pre), post. repeat split; auto.
    intros h [<-|Hin]; auto.
Qed.

(** X6: The grant returned is the first row of the query, in row order, whose
    spend-limit check passes: every matching row before it was denied. *)
Theorem find_valid_grant_first_match
  (db : list SessionKeyGrant) (now uid : Z) (target : string) (value : Z)
  (g : SessionKeyGrant) :
  find_valid_grant_for_action db now uid target value = Ok (Some g) ->
  exists pre post,
    filter (candidate now uid target) db = pre ++ g :: post /\
    (forall h, In h pre -> _check_spend_limits h value = Ok false) /\
    _check_spend_limits g value = Ok true.
Proof.
  unfold find_valid_grant_for_action. apply first_within_limits_split.
Qed.

Definition small_pool_grant : SessionKeyGrant :=
  mkGrant 6 1 "0xother"
    [("allowed_targets", JList [JStr "0xpool"]);
     ("spend_limits", JDict [("max_spend_per_tx", JInt 10)])]
    1000.

Lemma find_valid_grant_first_match_witness :
  exists pre post,
    filter (candidate 0 1 "0xpool") [small_pool_grant; pool_grant] = pre ++ pool_grant :: post /\
    (forall h, In h pre -> _check_spend_limits h 50 = Ok false) /\
    _check_spend_limits pool_grant 50 = Ok true.
Proof.
  apply (find_valid_grant_first_match [small_pool_grant; pool_grant] 0 1 "0xpool" 50 pool_grant).
  reflexivity.
Defined.

(** Whether the check raises does not depend on the value. *)
Lemma check_spend_limits_smaller (g : SessionKeyGrant) (value value' : Z) :
  (value' <= value)%Z ->
  match _check_spend_limits g value with
  | Ok true => _check_spend_limits g value' = Ok true
  | Ok false => exists b, _check_spend_limits g value' = Ok b
  | Raise e => _check_spend_limits g value' = Raise e
  end.
Proof.
  intros Hle. unfold _check_spend_limits, spend_limits_body.
  destruct (negb (mem "spend_limits" (permissions g))); [reflexivity|].
  destruct (lookup "spend_limits" (permissions g)) as [[| | | | |sl]|]; cbn; eauto.
  destruct (lookup "max_spend_per_tx" sl) as [[|b|m|s|l|d]|]; cbn; eauto.
  - destruct ((if b then 1 else 0) <? value)%Z eqn:E;
      destruct ((if b then 1 else 0) <? value')%Z eqn:E'; cbn; eauto.
    apply Z.ltb_ge in E. apply Z.ltb_lt in E'. lia.
  - destruct (m <? value)%Z eqn:E; destruct (m <? value')%Z eqn:E'; cbn; eauto.
    apply Z.ltb_ge in E. apply Z.ltb_lt in E'. lia.
Qed.

Lemma first_within_limits_smaller (rows : list SessionKeyGrant) (value value' : Z) :
  (value' <= value)%Z ->
  forall g, first_within_limits rows value = Ok (Some g) ->
  exists g', first_within_limits rows value' = Ok (Some g').
Proof.
  intros Hle. induction rows as [|r rows IH]; simpl; [discriminate|].
  intros g. pose proof (check_spend_limits_smaller r value value' Hle) as Hr.
  destruct (_check_spend_limits r value) as [[|]|e]; simpl.
  - intros _. rewrite Hr. simpl. eauto.
  - destruct Hr as [[|] ->]; simpl; eauto.
  - discriminate.
Qed.

(** X7: Spend limits are ceilings: a grant whose check passes for a value passes
    for every smaller value, and when some grant is found for a value, some
    grant is found for every smaller value. *)
Theorem spend_limits_allow_smaller_values
  (db : list SessionKeyGrant) (now uid : Z) (target : string) (value value' : Z) :
  (value' <= value)%Z ->
  (forall g, _check_spend_limits g value = Ok true -> _check_spend_limits g value' = Ok true) /\
  (forall g, find_valid_grant_for_action db now uid target value = Ok (Some g) ->
     exists g', find_valid_grant_for_action db now uid target value' = Ok (Some g')).
Proof.
  intros Hle. split.
  - intros g H. pose proof (check_spend_limits_smaller g value value' Hle) as Hs.
    now rewrite H in Hs.
  - intros g. unfold find_valid_grant_for_action. apply first_within_limits_smaller. exact Hle.
Qed.

Lemma spend_limits_allow_smaller_values_witness :
  _check_spend_limits pool_grant 7 = Ok true /\
  exists g', find_valid_grant_for_action [small_pool_grant; pool_grant] 0 1 "0xpool" 7
             = Ok (Some g').
Proof.
  destruct (spend_limits_allow_smaller_values [small_pool_grant; pool_grant] 0 1 "0xpool" 50 7)
    as [H1 H2]; [lia|].
  split.
  - apply H1. reflexivity.
  - apply (H2 pool_grant). reflexivity.
Defined.

(** The ceiling is unreadable: a string, a list or a dictionary. *)
Definition unreadable_ceiling (c : json) : Prop :=
  match c with
  | JStr _ | JList _ | JDict _ => True
  | _ => False
  end.

(** X8: A grant whose per-transaction ceiling is present but is not a number is
    denied for every value: the comparison raises [TypeError], which
    [_check_spend_limits] turns into a denial. *)
Theorem unreadable_ceiling_denies
  (g : SessionKeyGrant) (spend_limits : dict) (ceiling : json) (value : Z) :
  lookup "spend_limits" (permissions g) = Some (JDict spend_limits) ->
  lookup "max_spend_per_tx" spend_limits = Some ceiling ->
  unreadable_ceiling ceiling ->
  _check_spend_limits g value = Ok false.
Proof.
  intros Hs Hc Hu. unfold _check_spend_limits, spend_limits_body, mem.
  rewrite Hs. cbn. rewrite Hc.
  destruct ceiling; try contradiction; reflexivity.
Qed.

Definition text_ceiling_grant : SessionKeyGrant :=
  mkGrant 5 1 "0xtext"
    [("allowed_targets", JList [JStr "0xpool"]);
     ("spend_limits", JDict [("max_spend_per_tx", JStr "1000")])]
    1000.

Lemma unreadable_ceiling_denies_witness :
  _check_spend_limits text_ceiling_grant 1 = Ok false.
Proof.
  apply (unreadable_ceiling_denies text_ceiling_grant
           [("max_spend_per_tx", JStr "1000")] (JStr "1000") 1).
  - reflexivity.
  - reflexivity.
  - exact I.
Defined.

(** X9: When the value of [spend_limits] is not a dictionary, the check raises
    [AttributeError], which is not among the exceptions it turns into a
    denial: when the search reaches such a row, every earlier row having
    been denied, it stops with that exception, and later rows are not
    tried. *)
Theorem malformed_spend_limits_abort_search
  (db : list SessionKeyGrant) (now uid : Z) (target : string) (value : Z)
  (g : SessionKeyGrant) (other : json) (pre post : list SessionKeyGrant) :
  lookup "spend_limits" (permissions g) = Some other ->
  (forall d, other <> JDict d) ->
  filter (candidate now uid target) db = pre ++ g :: post ->
  (forall h, In h pre -> _check_spend_limits h value = Ok false) ->
  exists e,
    exn_cls e = AttributeError /\
    find_valid_grant_for_action db now uid target value = Raise e.
Proof.
  intros Hs Hnd Hrows Hpre. unfold find_valid_grant_for_action. rewrite Hrows. clear Hrows.
  assert (exists e, exn_cls e = AttributeError /\ _check_spend_limits g value = Raise e)
    as (e & He & Hc).
  { unfold _check_spend_limits, spend_limits_body, mem. rewrite Hs.
    destruct other as [| | | | |d]; [| | | | |now destruct (Hnd d)];
      cbn; (eexists; split; [|reflexivity]; reflexivity). }
  exists e. split; [exact He|].
  induction pre as [|h pre IH]; simpl.
  - rewrite Hc. reflexivity.
  - rewrite (Hpre h (or_introl eq_refl)). simpl. apply IH.
    intros h' Hin. apply Hpre. now right.
Qed.

Definition null_limits_grant : SessionKeyGrant :=
  mkGrant 4 1 "0xnull"
    [("allowed_targets", JList [JStr "0xpool"]); ("spend_limits", JNull)] 1000.

Lemma malformed_spend_limits_abort_search_witness :
  exists e,
    exn_cls e = AttributeError /\
    find_valid_grant_for_action [small_pool_grant; null_limits_grant; pool_grant]
      0 1 "0xpool" 50 = Raise e.
Proof.
  apply (malformed_spend_limits_abort_search
           [small_pool_grant; null_limits_grant; pool_grant] 0 1 "0xpool" 50
           null_limits_grant JNull [small_pool_grant] [pool_grant]).
  - reflexivity.
  - discriminate.
  - reflexivity.
  - intros h [<-|[]]. reflexivity.
Defined.

(** X10: A user whose grants have all expired gets no grant, whatever the target
    and the value, and the search raises nothing. *)
Theorem expired_grants_are_never_found
  (db : list SessionKeyGrant) (now uid : Z) (target : string) (value : Z) :
  (forall g, In g db -> user_id g = uid -> (expires_at g <= now)%Z) ->
  find_valid_grant_for_action db now uid target value = Ok None.
Proof.
  intros Hexp. unfold find_valid_grant_for_action.
  assert (filter (candidate now uid target) db = []) as ->; [|reflexivity].
  induction db as [|g db IH]; simpl; [reflexivity|].
  destruct (candidate now uid target g) eqn:Hc.
  - exfalso. unfold candidate in Hc.
    apply andb_true_iff in Hc. destruct Hc as [Hc _].
    apply andb_true_iff in Hc. destruct Hc as [Hu He].
    apply Z.eqb_eq in Hu. apply Z.ltb_lt in He.
    pose proof (Hexp g (or_introl eq_refl) Hu). lia.
  - apply IH. intros h Hin. apply Hexp. now right.
Qed.

Lemma expired_grants_are_never_found_witness :
  find_valid_grant_for_action [pool_grant; small_pool_grant] 1000 1 "0xpool" 1 = Ok None.
Proof.
  apply expired_grants_are_never_found.
  intros g [<-|[<-|[]]] _; simpl; lia.
Defined.

End GrantResolver.

(* ================================================================== *)
(** ** More on the engine: what is executed *)

(** X11: Whatever the graph holds, the provider is only ever asked to execute a
    swap, a bridge, a stake or a supply: no run logs an execute call for any
    other action type. *)
Theorem only_supported_actions_execute
  (env : environment) (w : workflow) (fuel : nat) (action_type qid : string) :
  In (EvExecute action_type qid) (log (execute_for_workflow env fuel w)) ->
  action_type = "swap" \/ action_type = "bridge" \/
  action_type = "stake" \/ action_type = "supply_asset".
Proof.
  intros Hin.
  pose proof (execute_for_workflow_safe env fuel w) as Hall. unfold safe in Hall.
  rewrite forallb_forall in Hall. specialize (Hall _ Hin).
  cbn [execute_supported] in Hall. unfold supported_action in Hall.
  repeat (apply orb_true_iff in Hall; destruct Hall as [Hall|Hall]);
    apply String.eqb_eq in Hall; auto.
Qed.

Lemma only_supported_actions_execute_witness :
  "stake" = "swap" \/ "stake" = "bridge" \/ "stake" = "stake" \/ "stake" = "supply_asset".
Proof.
  apply (only_supported_actions_execute (staking_env "50") stake_workflow 5 "stake" "q1").
  simpl. auto 10.
Defined.

(** X12: In [_sign_and_execute], the manager is asked to execute only after the
    grant resolver, asked for the user, the target contract of the call and
    the integer value of the quote's amount, has returned a grant, and after
    the message has been signed with that grant; the lookup, the signature
    and the execute call are then all that happens.  When the resolver
    returns none, the [SigningException] is raised and nothing is signed or
    executed. *)
Theorem sign_and_execute_requires_grant
  (env : environment) (i : nat) (id : string) (uid : Z) (sca : string)
  (action_type : string) (q : quote) (message_to_sign : string) (target_contract : json) :
  let m := _sign_and_execute env i id uid sca action_type q message_to_sign target_contract in
  (forall a qid, In (EvExecute a qid) (snd m) ->
     exists amount value g signature,
       amount_to_check q = Some amount /\ int amount = Ok value /\
       find_grant (grants env) (utcnow env i) uid target_contract value = Ok (Some g) /\
       sign_message env i g message_to_sign = Ok signature /\
       a = action_type /\ qid = quote_id q /\
       m = (execute_action env i action_type (quote_id q) signature sca,
            [EvGrantLookup id (utcnow env i) target_contract value;
             EvSign (grant_id g); EvExecute action_type (quote_id q)])) /\
  (forall amount value,
     amount_to_check q = Some amount -> int amount = Ok value ->
     find_grant (grants env) (utcnow env i) uid target_contract value = Ok None ->
     m = (Raise (no_valid_grant uid),
          [EvGrantLookup id (utcnow env i) target_contract value])).
Proof.
  cbv zeta.
  pose proof (sign_and_execute_cases env i id uid sca action_type q message_to_sign
                target_contract) as H. cbv zeta in H.
  split.
  - intros a qid Hin.
    destruct H as [[e He]|(amount & value & Ha & Hv & H)];
      [rewrite He in Hin; destruct Hin|].
    destruct H as [(e & _ & He)|[[_ He]|(g & Hg & H)]];
      try (rewrite He in Hin; cbn in Hin; destruct Hin as [Hin|[]]; discriminate Hin).
    destruct H as [(e & _ & He)|(signature & Hs & [(_ & Hl & _)|[_ He]])].
    + rewrite He in Hin. cbn in Hin. destruct Hin as [Hin|[Hin|[]]]; discriminate Hin.
    + rewrite Hl in Hin. cbn in Hin. destruct Hin as [Hin|[Hin|[]]]; discriminate Hin.
    + rewrite He in Hin. cbn in Hin.
      destruct Hin as [Hin|[Hin|[Hin|[]]]]; try discriminate Hin.
      injection Hin as <- <-.
      exists amount, value, g, signature. auto 10.
  - intros amount value Ha Hv Hnone.
    destruct H as [[e He]|(amount' & value' & Ha' & Hv' & H)].
    + exfalso. unfold _sign_and_execute in He. rewrite Ha in He.
      cbn [bindM lift fst snd] in He. rewrite Hv in He.
      cbn [bindM lift emit fst snd app] in He. rewrite Hnone in He.
      cbn [bindM lift raise emit fst snd app] in He. discriminate He.
    + rewrite Ha in Ha'. injection Ha' as <-. rewrite Hv in Hv'. injection Hv' as <-.
      rewrite Hnone in H.
      destruct H as [(e & He & _)|[[_ He]|(g & Hg & _)]];
        [discriminate He | exact He | discriminate Hg].
Qed.

Lemma sign_and_execute_requires_grant_witness :
  _sign_and_execute over_limit_env 1 "n2" 1 "0xsca" "stake"
      (QStaking (mkStakingQuote "q1" "500" "0xpool" (JDict []))) "q1" (JStr "0xpool")
    = (Raise (no_valid_grant 1), [EvGrantLookup "n2" 0 (JStr "0xpool") 500]).
Proof.
  destruct (sign_and_execute_requires_grant over_limit_env 1 "n2" 1 "0xsca" "stake"
              (QStaking (mkStakingQuote "q1" "500" "0xpool" (JDict []))) "q1" (JStr "0xpool"))
    as [_ H].
  apply (H "500" 500%Z); reflexivity.
Defined.

(* ================================================================== *)
(** ** More on the engine: which edge is followed *)

Section EdgeFollowing.

Variable w : workflow.

Lemma find_filter (A : Type) (p q : A -> bool) (l : list A) :
  find p (filter q l) = find (fun x => q x && p x) l.
Proof.
  induction l as [|a l IH]; simpl; [reflexivity|].
  destruct (q a); simpl; [|exact IH].
  destruct (p a); [reflexivity | exact IH].
Qed.

(** The edge chosen among the edges that leave [id] and satisfy [p]: the
    first one in the order of the list of edges, if any. *)
Definition first_edge (p : edge -> bool) (id : string) (next : option string) : Prop :=
  match next with
  | Some t =>
      exists pre e post,
        edges w = pre ++ e :: post /\
        edge_source e = id /\ p e = true /\ edge_target e = t /\
        (forall e', In e' pre -> ~ (edge_source e' = id /\ p e' = true))
  | None =>
      forall e, In e (edges w) -> ~ (edge_source e = id /\ p e = true)
  end.

Lemma next_target_first_edge (p : edge -> bool) (id : string) :
  first_edge p id (next_target p (outgoing_edges w id)).
Proof.
  unfold next_target, outgoing_edges, first_edge. rewrite find_filter.
  destruct (find _ (edges w)) as [e|] eqn:Hf; cbn [option_map].
  - destruct (find_first_split _ _ Hf) as (pre & post & Hsplit & He & Hpre).
    apply andb_true_iff in He. destruct He as [Hs Hp]. apply String.eqb_eq in Hs.
    exists pre, e, post. repeat split; auto.
    intros e' Hin [Hs' Hp']. rewrite forallb_forall in Hpre. specialize (Hpre e' Hin).
    cbv beta in Hpre. rewrite Hs', String.eqb_refl, Hp' in Hpre. discriminate Hpre.
  - intros e Hin [Hs Hp]. pose proof (find_none _ _ Hf e Hin) as Hn. cbv beta in Hn.
    rewrite Hs, String.eqb_refl, Hp in Hn. discriminate Hn.
Qed.


End EdgeFollowing.

(* ================================================================== *)
(** ** The state of a workflow ([app/models/workflow.py]) *)

Module WorkflowState.

(** The columns that the state methods of [Workflow] read and write.
    Instants are seconds. *)
Record row : Type := mkRow {
  is_active : bool;
  current_state : string;
  trigger_type : string;
  next_check_at : option Z;
  execution_count : Z;
  success_count : Z;
  failure_count : Z;
  max_retries : Z;
  current_retry_count : Z;
  last_error_message : option string;
  last_error_at : option Z;
  last_executed_at : option Z
}.

Definition one_of (s : string) (l : list string) : bool := existsb (String.eqb s) l.

(** The property [is_running]. *)
Definition is_running (r : row) : bool :=
  one_of (current_state r) ["triggered"; "executing"; "waiting_signature"].

(** The property [can_be_triggered]. *)
Definition can_be_triggered (r : row) : bool :=
  is_active r && negb (is_running r) &&
  negb (one_of (current_state r) ["failed"; "cancelled"]).

(** [update_state(new_state, error_message)] at instant [now]. *)
Definition update_state (now : Z) (r : row) (new_state : string)
  (error_message : option string) : row :=
  let failed := truthy error_message in
  mkRow (is_active r) new_state (trigger_type r) (next_check_at r)
        (execution_count r) (success_count r)
        (if failed then failure_count r + 1 else failure_count r)%Z
        (max_retries r)
        (if negb (String.eqb new_state "failed") then 0%Z else current_retry_count r)
        (if failed then error_message else last_error_message r)
        (if failed then Some now else last_error_at r)
        (last_executed_at r).

(** [increment_execution_count(success)] at instant [now]. *)
Definition increment_execution_count (now : Z) (r : row) (success : bool) : row :=
  mkRow (is_active r) (current_state r) (trigger_type r) (next_check_at r)
        (execution_count r + 1)%Z
        (if success then success_count r + 1 else success_count r)%Z
        (if success then failure_count r else failure_count r + 1)%Z
        (max_retries r) (current_retry_count r)
        (last_error_message r) (last_error_at r) (Some now).

(** [can_retry()] *)
Definition can_retry (r : row) : bool :=
  String.eqb (current_state r) "failed" && (current_retry_count r <? max_retries r)%Z.

(** [schedule_retry(delay_minutes)] at instant [now]; the instant stands
    for the SQL expression [func.now()], and the sum for the expression the
    source assigns to [next_check_at]. *)
Definition schedule_retry (now : Z) (r : row) (delay_minutes : Z) : row :=
  if can_retry r then
    mkRow (is_active r) "pending" (trigger_type r) (Some (now + 60 * delay_minutes)%Z)
          (execution_count r) (success_count r) (failure_count r)
          (max_retries r) (current_retry_count r + 1)%Z
          (last_error_message r) (last_error_at r) (last_executed_at r)
  else r.

(** A call of one of the three methods, with the instant at which it runs. *)
Inductive operation : Type :=
| UpdateState (now : Z) (new_state : string) (error_message : option string)
| IncrementExecutionCount (now : Z) (success : bool)
| ScheduleRetry (now : Z) (delay_minutes : Z).

Definition apply (r : row) (op : operation) : row :=
  match op with
  | UpdateState now new_state error_message => update_state now r new_state error_message
  | IncrementExecutionCount now success => increment_execution_count now r success
  | ScheduleRetry now delay_minutes => schedule_retry now r delay_minutes
  end.

Definition apply_all (r : row) (ops : list operation) : row := fold_left apply ops r.

(** A row as the column defaults make it. *)
Definition fresh (active : bool) (kind : string) : row :=
  mkRow active "pending" kind None 0 0 0 3 0 None None None.

End WorkflowState.

Section WorkflowStateFacts.

Import WorkflowState.

(** The counters add up: successes are counted among the executions, and
    every execution is counted as a success or as a failure. *)
Definition counters_consistent (r : row) : Prop :=
  (0 <= success_count r)%Z /\ (success_count r <= execution_count r)%Z /\
  (execution_count r <= success_count r + failure_count r)%Z.

(** X19: Whatever the calls of [update_state], [increment_execution_count] and
    [schedule_retry], in any order, the success count stays within the
    execution count (the success rate never passes 100), every execution
    stays counted as a success or a failure, and no counter decreases. *)
Theorem counters_stay_consistent (r : row) (ops : list operation) :
  counters_consistent r ->
  counters_consistent (apply_all r ops) /\
  (execution_count r <= execution_count (apply_all r ops))%Z /\
  (success_count r <= success_count (apply_all r ops))%Z /\
  (failure_count r <= failure_count (apply_all r ops))%Z.
Proof.
  unfold apply_all. revert r. induction ops as [|op ops IH]; intros r Hc; simpl.
  - repeat split; try apply Hc; lia.
  - assert (counters_consistent (apply r op) /\
            (execution_count r <= execution_count (apply r op))%Z /\
            (success_count r <= success_count (apply r op))%Z /\
            (failure_count r <= failure_count (apply r op))%Z) as (Hc' & H1 & H2 & H3).
    { destruct Hc as (Ha & Hb & Hd). unfold counters_consistent.
      destruct op as [now s m|now [|]|now d]; cbn.
      - destruct (truthy m); cbn; lia.
      - lia.
      - lia.
      - unfold schedule_retry. destruct (can_retry r); cbn; lia. }
    destruct (IH (apply r op) Hc') as (Hc'' & H1' & H2' & H3').
    split; [exact Hc''|]. lia.
Qed.

Lemma counters_stay_consistent_witness :
  counters_consistent
    (apply_all (fresh true "time_trigger")
       [IncrementExecutionCount 10 true; UpdateState 20 "failed" (Some "provider down");
        IncrementExecutionCount 20 false; ScheduleRetry 21 5]).
Proof.
  apply (counters_stay_consistent (fresh true "time_trigger")).
  unfold counters_consistent. simpl. lia.
Defined.

(** The retry counter is a count within its bound. *)
Definition retries_bounded (r : row) : Prop :=
  (0 <= current_retry_count r)%Z /\ (current_retry_count r <= max_retries r)%Z.

(** X20: Whatever the calls of the three methods, the retry counter never passes
    [max_retries], and [max_retries] is never altered. *)
Theorem retries_stay_bounded (r : row) (ops : list operation) :
  retries_bounded r ->
  retries_bounded (apply_all r ops) /\ max_retries (apply_all r ops) = max_retries r.
Proof.
  unfold apply_all. revert r. induction ops as [|op ops IH]; intros r Hb; simpl.
  - auto.
  - assert (retries_bounded (apply r op) /\ max_retries (apply r op) = max_retries r)
      as (Hb' & Hm).
    { destruct Hb as (Ha & Hb). unfold retries_bounded.
      destruct op as [now s m|now ok|now d]; cbn.
      - destruct (negb (String.eqb s "failed")); cbn; split; try reflexivity; lia.
      - split; [lia | reflexivity].
      - unfold schedule_retry, can_retry.
        destruct (String.eqb (current_state r) "failed"); cbn; [|split; [lia|reflexivity]].
        destruct (current_retry_count r <? max_retries r)%Z eqn:E; cbn;
          [|split; [lia|reflexivity]].
        apply Z.ltb_lt in E. split; [lia | reflexivity]. }
    destruct (IH (apply r op) Hb') as (Hb'' & Hm'). split; [exact Hb''|]. congruence.
Qed.

Lemma retries_stay_bounded_witness :
  retries_bounded
    (apply_all (fresh true "time_trigger")
       [UpdateState 1 "failed" (Some "e"); ScheduleRetry 2 5;
        UpdateState 3 "failed" (Some "e"); ScheduleRetry 4 5;
        UpdateState 5 "failed" (Some "e"); ScheduleRetry 6 5;
        UpdateState 7 "failed" (Some "e"); ScheduleRetry 8 5]).
Proof.
  apply (retries_stay_bounded (fresh true "time_trigger")).
  unfold retries_bounded. simpl. lia.
Defined.

Definition is_schedule_retry (op : operation) : bool :=
  match op with ScheduleRetry _ _ => true | _ => false end.

(** X21: A failed workflow whose retries are used up stays as it is, failed and
    not triggerable, however often [schedule_retry] is called; a failed
    workflow with a retry left becomes pending, with one more retry counted,
    and is triggerable again when it is active. *)
Theorem schedule_retry_effect (now : Z) (r : row) (delay_minutes : Z) :
  current_state r = "failed" ->
  ((max_retries r <= current_retry_count r)%Z ->
     forall ops, forallb is_schedule_retry ops = true ->
       apply_all r ops = r /\ can_be_triggered (apply_all r ops) = false) /\
  ((current_retry_count r < max_retries r)%Z ->
     let r' := schedule_retry now r delay_minutes in
     current_state r' = "pending" /\
     current_retry_count r' = (current_retry_count r + 1)%Z /\
     can_be_triggered r' = is_active r).
Proof.
  intros Hs. split.
  - intros Hex ops. unfold apply_all. induction ops as [|op ops IH]; simpl.
    + intros _. split; [reflexivity|]. unfold can_be_triggered. rewrite Hs.
      cbn. now rewrite andb_false_r.
    + destruct op as [| |now' d]; cbn [is_schedule_retry andb]; try discriminate.
      intros Hall. cbn [apply]. unfold schedule_retry, can_retry.
      rewrite Hs. cbn [String.eqb Ascii.eqb Bool.eqb andb].
      destruct (current_retry_count r <? max_retries r)%Z eqn:E;
        [apply Z.ltb_lt in E; lia|].
      apply IH. exact Hall.
  - intros Hlt. cbv zeta. unfold schedule_retry, can_retry.
    rewrite Hs. cbn [String.eqb Ascii.eqb Bool.eqb andb].
    apply Z.ltb_lt in Hlt. rewrite Hlt. cbn.
    repeat split. unfold can_be_triggered, is_running. cbn.
    now rewrite !andb_true_r.
Qed.

Lemma schedule_retry_effect_witness :
  can_be_triggered
    (schedule_retry 100 (update_state 90 (fresh true "time_trigger") "failed" (Some "e")) 5)
    = true.
Proof.
  destruct (schedule_retry_effect 100
              (update_state 90 (fresh true "time_trigger") "failed" (Some "e")) 5 eq_refl)
    as [_ H].
  destruct (H ltac:(simpl; lia)) as (_ & _ & Ht). exact Ht.
Defined.

End WorkflowStateFacts.
(* ================================================================== *)
(** ** More on the entry node *)

Section EntryNodeFacts.

Lemma start_node_id_in (w : workflow) (id : string) :
  start_node_id w = Some id -> In id (map node_id (nodes w)).
Proof.
  unfold start_node_id. destruct (nodes w) as [|first rest] eqn:Hn; [discriminate|].
  destruct (find (not_a_target w) (first :: rest)) as [n|] eqn:Hf.
  - intros [= <-]. apply find_some in Hf. apply in_map. tauto.
  - intros [= <-]. simpl. auto.
Qed.

(** X22: The entry node is a node of the graph: [start_node_id] answers [None]
    exactly for a graph without nodes, and otherwise the id of one of the
    nodes. *)
Theorem start_node_id_is_a_node (w : workflow) :
  (start_node_id w = None <-> nodes w = []) /\
  (forall id, start_node_id w = Some id -> In id (map node_id (nodes w))).
Proof.
  split.
  - unfold start_node_id. destruct (nodes w) as [|first rest]; [tauto|].
    destruct (find (not_a_target w) (first :: rest)); split; discriminate.
  - intros id. apply start_node_id_in.
Qed.

(** X23: When some node of the graph is the target of no edge, the entry node is
    such a node: execution never starts in the middle of a chain.  (When
    every node is a target, the entry node is the first node of the list.) *)
Theorem start_node_id_has_no_incoming_edge (w : workflow) :
  (exists n, In n (nodes w) /\ not_a_target w n = true) ->
  exists n,
    In n (nodes w) /\ start_node_id w = Some (node_id n) /\
    forall e, In e (edges w) -> edge_target e <> node_id n.
Proof.
  intros (n0 & Hin0 & Hnt0). unfold start_node_id.
  destruct (nodes w) as [|first rest] eqn:Hnodes; [destruct Hin0|].
  destruct (find (not_a_target w) (first :: rest)) as [n|] eqn:Hf.
  - apply find_some in Hf. destruct Hf as [Hin Hnt].
    exists n. split; [exact Hin|]. split; [reflexivity|].
    intros e He Heq. unfold not_a_target, target_ids in Hnt.
    apply negb_true_iff in Hnt.
    assert (existsb (String.eqb (node_id n)) (map edge_target (edges w)) = true) as Hex.
    { apply existsb_exists. exists (edge_target e). split.
      - apply in_map. exact He.
      - rewrite Heq. apply String.eqb_refl. }
    rewrite Hex in Hnt. discriminate Hnt.
  - pose proof (find_none _ _ Hf n0 Hin0) as Hn. rewrite Hnt0 in Hn. discriminate Hn.
Qed.

Lemma start_node_id_has_no_incoming_edge_witness :
  exists n,
    In n (nodes stake_workflow) /\ start_node_id stake_workflow = Some (node_id n) /\
    forall e, In e (edges stake_workflow) -> edge_target e <> node_id n.
Proof.
  apply start_node_id_has_no_incoming_edge.
  exists (hd (mkNode "" "" []) (nodes stake_workflow)). split; [simpl; auto | reflexivity].
Defined.

End EntryNodeFacts.
(* ================================================================== *)
(** ** The dispatcher of the trigger checker
       ([TriggerCheckerService.check_workflow]) *)

Module TriggerDispatch.

Import WorkflowState.

(** [_check_time_trigger] at instant [now]. *)
Definition _check_time_trigger (now : Z) (r : row) : bool :=
  match next_check_at r with
  | None => false
  | Some due => (due <=? now)%Z
  end.

Section Dispatch.

(** [_check_price_trigger], which compares floating-point prices and
    catches its own errors, and the collaborators of the polling checker. *)
Variable price_trigger : row -> workflow -> result bool.
Variable parse : json -> result parsed_feed.
Variable twitter_checker : option (workflow -> result check_result).
Variable evm_checker : workflow -> result check_result.

(** [check_workflow]: [r] holds the state columns of the workflow [w]. *)
Definition check_workflow (now : Z) (session : list workflow) (r : row) (w : workflow)
  : polled :=
  if negb (can_be_triggered r) then mkPolled false w session
  else if String.eqb (trigger_type r) "price_trigger" then
    match price_trigger r w with
    | Ok fired => mkPolled fired w session
    | Raise _ => mkPolled false w session
    end
  else if String.eqb (trigger_type r) "time_trigger" then
    mkPolled (_check_time_trigger now r) w session
  else if String.eqb (trigger_type r) "polling_event" then
    match _check_polling_event parse twitter_checker evm_checker session w with
    | Ok p => p
    | Raise _ => mkPolled false w session
    end
  else mkPolled false w session.

End Dispatch.

End TriggerDispatch.

Lemma check_polling_event_not_fired
  (parse : json -> result parsed_feed)
  (twitter_checker : option (workflow -> result check_result))
  (evm_checker : workflow -> result check_result)
  (session : list workflow) (w : workflow) (p : polled) :
  _check_polling_event parse twitter_checker evm_checker session w = Ok p ->
  is_triggered p = false ->
  workflow_after p = w /\ session_after p = session.
Proof.
  unfold _check_polling_event.
  destruct (checker_for _ _ _ _) as [[check|]|e]; cbn [bind]; [| |discriminate].
  - destruct (check w) as [[[|] new_state]|e]; cbn [bind]; try discriminate;
      intros [= <-]; cbn; [discriminate | auto].
  - intros [= <-]. cbn. auto.
Qed.

(** X24: A workflow that is inactive, running, failed or cancelled is never
    reported as triggered; and a check that reports false has written
    nothing: the workflow and the session are as they were. *)
Theorem check_workflow_false_changes_nothing
  (price_trigger : WorkflowState.row -> workflow -> result bool)
  (parse : json -> result parsed_feed)
  (twitter_checker : option (workflow -> result check_result))
  (evm_checker : workflow -> result check_result)
  (now : Z) (session : list workflow) (r : WorkflowState.row) (w : workflow) :
  let p := TriggerDispatch.check_workflow price_trigger parse twitter_checker evm_checker
             now session r w in
  (is_triggered p = true -> WorkflowState.can_be_triggered r = true) /\
  (is_triggered p = false -> workflow_after p = w /\ session_after p = session).
Proof.
  cbv zeta. unfold TriggerDispatch.check_workflow.
  destruct (WorkflowState.can_be_triggered r); cbn [negb];
    [|split; [discriminate | auto]].
  split; [reflexivity|].
  destruct (String.eqb (WorkflowState.trigger_type r) "price_trigger").
  { destruct (price_trigger r w); auto. }
  destruct (String.eqb (WorkflowState.trigger_type r) "time_trigger"); [auto|].
  destruct (String.eqb (WorkflowState.trigger_type r) "polling_event"); [|auto].
  destruct (_check_polling_event parse twitter_checker evm_checker session w) as [p|e] eqn:E;
    [|auto].
  intros Hf.
  exact (check_polling_event_not_fired parse twitter_checker evm_checker session w p E Hf).
Qed.

(** A feed with one dated entry, and an RSS workflow as a query loads it. *)
Definition one_new_entry (_ : json) : result parsed_feed :=
  Ok (mkFeed false [mkEntry (Some 1700000000%Z) None (Some "Release")] (fun _ => 1700000100%Z)).

Definition rss_with_url : workflow :=
  mkWorkflow 9 1 "0xsca"
    [("source", JStr "rss"); ("params", JDict [("feed_url", JStr "https://example.org/feed")])]
    [] [] [].

Definition failed_row : WorkflowState.row :=
  WorkflowState.update_state 90 (WorkflowState.fresh true "polling_event") "failed" (Some "e").

Lemma check_workflow_false_changes_nothing_witness :
  workflow_after
    (TriggerDispatch.check_workflow (fun _ _ => Ok true) one_new_entry None
       (fun _ => unavailable "evm") 100 [] failed_row rss_with_url) = rss_with_url.
Proof.
  destruct (check_workflow_false_changes_nothing (fun _ _ => Ok true) one_new_entry None
              (fun _ => unavailable "evm") 100 [] failed_row rss_with_url) as [_ H].
  destruct (H eq_refl) as [Hw _]. exact Hw.
Defined.

(* ================================================================== *)
(** ** Polling triggers on a workflow that a query loads *)

(** A wallet watcher as a query loads it. *)
Definition evm_watcher : workflow :=
  mkWorkflow 10 1 "0xsca"
    [("source", JStr "evm");
     ("params", JDict [("type", JStr "wallet_transaction"); ("address", JStr "0xabc")])]
    [] [] [].

Definition one_transaction (_ : json) (_ : Z) : result json :=
  Ok (JDict [("status", JStr "1");
             ("result", JList [JDict [("blockNumber", JStr "19000000")]])]).

(** The checkers on an instance to which the attribute [state] was
    assigned by hand, which no path of the program does before a check:
    the feed's dated entry is newer than the empty state and fires; an
    entry without a date takes the clock's reading, read again after the
    maximum is found; the wallet watcher fires with the highest block. *)
Example checkers_with_assigned_state :
  rss_check one_new_entry (set_state rss_with_url (JDict []))
    = Ok (true, JDict [("last_entry_timestamp", JInt 1700000000)]) /\
  rss_check (fun _ => Ok (mkFeed false [mkEntry None None (Some "Undated")]
                            (fun k => 1700000100 + Z.of_nat k)%Z))
            (set_state rss_with_url JNull)
    = Ok (true, JDict [("last_entry_timestamp", JInt 1700000101)]) /\
  rss_check one_new_entry
            (set_state rss_with_url (JDict [("last_entry_timestamp", JInt 1700000000)]))
    = Ok (false, JDict [("last_entry_timestamp", JInt 1700000000)]) /\
  EvmChecker.check (Some "key") one_transaction (set_state evm_watcher (JDict []))
    = Ok (true, JDict [("last_checked_block", JInt 19000000)]).
Proof. repeat split; reflexivity. Qed.

Section PollingFacts.

Variable price_trigger : WorkflowState.row -> workflow -> result bool.
Variable parse : json -> result parsed_feed.
Variable twitter_checker : option (workflow -> result check_result).
Variable evm_checker : workflow -> result check_result.

Lemma rss_check_without_state (w : workflow) :
  lookup "state" (attributes w) = None -> rss_check parse w = Raise no_state.
Proof.
  intros H. unfold rss_check, state_or_empty, workflow_state. now rewrite H.
Qed.

(** C3 fails on the code.  A workflow that a query loads has no attribute
    [state].  For such a workflow with the source [rss], whatever the feed
    holds, [RssCheckerService.check] raises [AttributeError] at its first
    read of [workflow.state]; [_check_polling_event] lets the exception
    pass, so its assignment of the state is not reached; and
    [check_workflow] catches it and answers false: no cursor is stored on
    the workflow and nothing is added to the session. *)
Theorem polling_check_stores_no_state
  (now : Z) (session : list workflow) (r : WorkflowState.row) (w : workflow) :
  lookup "state" (attributes w) = None ->
  lookup "source" (trigger_config w) = Some (JStr "rss") ->
  WorkflowState.trigger_type r = "polling_event" ->
  rss_check parse w = Raise no_state /\
  _check_polling_event parse twitter_checker evm_checker session w = Raise no_state /\
  TriggerDispatch.check_workflow price_trigger parse twitter_checker evm_checker
    now session r w = mkPolled false w session /\
  lookup "state" (attributes (workflow_after
    (TriggerDispatch.check_workflow price_trigger parse twitter_checker evm_checker
       now session r w))) = None.
Proof.
  intros Hstate Hsource Htype.
  pose proof (rss_check_without_state w Hstate) as Hrss.
  assert (_check_polling_event parse twitter_checker evm_checker session w = Raise no_state)
    as Hpoll.
  { unfold _check_polling_event. rewrite Hsource. cbn [checker_for String.eqb Ascii.eqb
      Bool.eqb bind]. now rewrite Hrss. }
  assert (TriggerDispatch.check_workflow price_trigger parse twitter_checker evm_checker
            now session r w = mkPolled false w session) as Hcheck.
  { unfold TriggerDispatch.check_workflow. rewrite Htype, Hpoll. cbn.
    now destruct (negb (WorkflowState.can_be_triggered r)). }
  repeat split; try assumption. rewrite Hcheck. exact Hstate.
Qed.

End PollingFacts.

Lemma polling_check_stores_no_state_witness :
  rss_check one_new_entry rss_with_url = Raise no_state /\
  _check_polling_event one_new_entry None (EvmChecker.check (Some "key") one_transaction)
    [] rss_with_url = Raise no_state /\
  TriggerDispatch.check_workflow (fun _ _ => Ok false) one_new_entry None
    (EvmChecker.check (Some "key") one_transaction) 100 []
    (WorkflowState.fresh true "polling_event") rss_with_url
    = mkPolled false rss_with_url [] /\
  lookup "state" (attributes (workflow_after
    (TriggerDispatch.check_workflow (fun _ _ => Ok false) one_new_entry None
       (EvmChecker.check (Some "key") one_transaction) 100 []
       (WorkflowState.fresh true "polling_event") rss_with_url))) = None.
Proof.
  apply (polling_check_stores_no_state (fun _ _ => Ok false) one_new_entry None
           (EvmChecker.check (Some "key") one_transaction) 100 []
           (WorkflowState.fresh true "polling_event") rss_with_url); reflexivity.
Defined.

Section NeverFires.

Variable price_trigger : WorkflowState.row -> workflow -> result bool.
Variable parse : json -> result parsed_feed.
Variable get_user : json -> result (option Z).
Variable get_users_tweets : Z -> json -> result (list Z).
Variable api_key : option string.
Variable txlist : json -> Z -> result json.

Lemma evm_check_without_state (w : workflow) :
  lookup "state" (attributes w) = None ->
  exists e, EvmChecker.check api_key txlist w = Raise e.
Proof.
  intros H. unfold EvmChecker.check, EvmChecker._check_wallet_transactions,
    state_or_empty, workflow_state. rewrite H. cbn [bind].
  destruct api_key; [|eexists; reflexivity].
  destruct (get_or _ _ _) as [event_type|e]; cbn [bind]; [|eexists; reflexivity].
  destruct (EvmChecker.json_is _ _); eexists; reflexivity.
Qed.

Lemma twitter_check_without_state (w : workflow) :
  lookup "state" (attributes w) = None ->
  exists e, TwitterChecker.check get_user get_users_tweets w = Raise e.
Proof.
  intros H. unfold TwitterChecker.check, TwitterChecker._check_user_tweets,
    state_or_empty, workflow_state. rewrite H. cbn [bind].
  destruct (get_or _ _ _) as [event_type|e]; cbn [bind]; [|eexists; reflexivity].
  destruct (EvmChecker.json_is _ _); eexists; reflexivity.
Qed.

(** The checkers of the three sources as the service builds them; the
    Twitter checker is there when its token is configured. *)
Definition twitter_service (configured : bool) : option (workflow -> result check_result) :=
  if configured then Some (TwitterChecker.check get_user get_users_tweets) else None.

(** X15: A polling-event workflow that a query loads never fires: whatever its
    source and whatever the feed, the client and the endpoint answer, each
    of the three checkers raises on its first read of [workflow.state],
    and [check_workflow] answers false with the workflow and the session
    as they were. *)
Theorem polling_event_never_fires
  (configured : bool) (now : Z) (session : list workflow)
  (r : WorkflowState.row) (w : workflow) :
  lookup "state" (attributes w) = None ->
  WorkflowState.trigger_type r = "polling_event" ->
  (exists e, rss_check parse w = Raise e) /\
  (exists e, TwitterChecker.check get_user get_users_tweets w = Raise e) /\
  (exists e, EvmChecker.check api_key txlist w = Raise e) /\
  TriggerDispatch.check_workflow price_trigger parse (twitter_service configured)
    (EvmChecker.check api_key txlist) now session r w = mkPolled false w session.
Proof.
  intros Hstate Htype.
  pose proof (rss_check_without_state parse w Hstate) as Hrss.
  destruct (twitter_check_without_state w Hstate) as [et Ht].
  destruct (evm_check_without_state w Hstate) as [ee He].
  split; [eexists; exact Hrss|]. split; [eexists; exact Ht|]. split; [eexists; exact He|].
  unfold TriggerDispatch.check_workflow. rewrite Htype. cbn [String.eqb Ascii.eqb Bool.eqb].
  destruct (negb (WorkflowState.can_be_triggered r)); [reflexivity|].
  unfold _check_polling_event.
  destruct (checker_for _ _ _ _) as [[check|]|e] eqn:Hc; cbn [bind]; try reflexivity.
  assert (exists e, check w = Raise e) as [e Hraise].
  { unfold checker_for in Hc.
    destruct (match lookup "source" (trigger_config w) with Some v => v | None => JNull end)
      as [| | |name| |]; try discriminate Hc.
    destruct (String.eqb name "rss"); [injection Hc as <-; eexists; exact Hrss|].
    destruct (String.eqb name "twitter").
    - unfold twitter_service in Hc. destruct configured; [|discriminate Hc].
      injection Hc as <-. eexists; exact Ht.
    - destruct (String.eqb name "evm"); [|discriminate Hc].
      injection Hc as <-. eexists; exact He. }
  rewrite Hraise. reflexivity.
Qed.

End NeverFires.

Lemma polling_event_never_fires_witness :
  TriggerDispatch.check_workflow (fun _ _ => Ok true) one_new_entry
    (twitter_service (fun _ => Ok (Some 7%Z)) (fun _ _ => Ok [42%Z]) true)
    (EvmChecker.check (Some "key") one_transaction) 100 []
    (WorkflowState.fresh true "polling_event") evm_watcher
  = mkPolled false evm_watcher [].
Proof.
  destruct (polling_event_never_fires (fun _ _ => Ok true) one_new_entry
              (fun _ => Ok (Some 7%Z)) (fun _ _ => Ok [42%Z]) (Some "key") one_transaction
              true 100 [] (WorkflowState.fresh true "polling_event") evm_watcher
              eq_refl eq_refl) as (_ & _ & _ & H).
  exact H.
Defined.
